(** * Vehicle parking front end: check-in / check-out handlers and charge

    A shallow embedding of the functional core of the React front end:

    - [App] (the root component): the [Vehicle] record, [handleCheckin],
      [calculateCharge] and [handleCheckout];
    - [ActiveVehicles]: [getCurrentCharge], which applies the
      [calculateCharge] prop handed down by [App];
    - [ActiveVehiclesDetails]: its local [calculateCharge] and
      [getCurrentCharge];
    - [VehicleCheckin]: [validateVehicleNumber], [validatePhoneNumber] and
      [handleVehicleNumberChange].

    Modelling conventions.

    - A JavaScript [number] that holds a duration in hours is an exact
      rational ([Q]); a [Date] is its [getTime()] value, the number of
      milliseconds since the epoch ([Z]); an amount of money is an integer
      ([Z]), as [Math.ceil(..) * 20] and the literal [10] are.
    - A JavaScript string is a [string]; each [ascii] stands for the code
      unit of the same number, so the model covers strings whose code units
      are below 256.
    - [useState]'s [vehicles] / [setVehicles] pair is explicit state passing;
      [alert] and [toast.error] are logged in a list of notifications.
    - [Date.now()] and [new Date()] read the clock; each reading is an
      argument of the handler that performs it. *)

From Stdlib Require Import ZArith QArith Qround Lia List Bool Permutation.
From Stdlib Require Import Ascii String DecimalString DecimalPos DecimalZ.
Import ListNotations.

(** ** JavaScript primitives used by the handlers *)

Module JS.

(** [Math.ceil] on a rational. *)
Definition Math_ceil (x : Q) : Z := Qceiling x.

(** [(1000 * 60 * 60)]: milliseconds in an hour. *)
Definition msPerHour : Z := 1000 * 60 * 60.

(** [(a.getTime() - b.getTime()) / (1000 * 60 * 60)]. *)
Definition hoursBetween (a b : Z) : Q :=
  (inject_Z (a - b) / inject_Z msPerHour)%Q.

(** [n.toString()] for an integer [n]: decimal digits, with a leading
    minus sign when negative. *)
Definition toString (n : Z) : string :=
  NilZero.string_of_int (Z.to_int n).

End JS.

(** ** The root component: vehicle records and the two handlers *)

Module App.

(** [status: 'active' | 'completed'] *)
Inductive Status : Type := active | completed.

Definition Status_eqb (a b : Status) : bool :=
  match a, b with
  | active, active | completed, completed => true
  | _, _ => false
  end.

(** [export interface Vehicle]; an optional field is an [option]. *)
Record Vehicle : Type := mkVehicle {
  id : string;
  vehicleNumber : string;
  vehicleType : string;
  ownerName : string;
  phoneNumber : string;
  checkInTime : Z;
  checkOutTime : option Z;
  duration : option Q;
  charge : option Z;
  status : Status
}.

(** [Omit<Vehicle, 'id' | 'checkInTime' | 'status'>], the argument type of
    [handleCheckin]: the optional fields are still part of it. *)
Record CheckinData : Type := mkCheckinData {
  data_vehicleNumber : string;
  data_vehicleType : string;
  data_ownerName : string;
  data_phoneNumber : string;
  data_checkOutTime : option Z;
  data_duration : option Q;
  data_charge : option Z
}.

(** What the user is shown: [alert(msg)] and
    [toast.error(title, { description })]. *)
Inductive Notification : Type :=
| Alert (message : string)
| ToastError (title description : string).

(** A handler reads the [vehicles] state of the current render, may call
    [setVehicles], may notify the user, and returns a value. *)
Definition Handler (A : Type) : Type :=
  list Vehicle -> A * list Vehicle * list Notification.

Definition ret {A} (a : A) : Handler A := fun vs => (a, vs, []).

Definition bind {A B} (m : Handler A) (k : A -> Handler B) : Handler B :=
  fun vs =>
    let '(a, vs1, out1) := m vs in
    let '(b, vs2, out2) := k a vs1 in
    (b, vs2, out1 ++ out2).

Definition getVehicles : Handler (list Vehicle) := fun vs => (vs, vs, []).

Definition setVehicles (vs' : list Vehicle) : Handler unit :=
  fun _ => (tt, vs', []).

Definition notify (n : Notification) : Handler unit :=
  fun vs => (tt, vs, [n]).

Definition alert (message : string) : Handler unit := notify (Alert message).

Definition toast_error (title description : string) : Handler unit :=
  notify (ToastError title description).

Definition returned {A} (r : A * list Vehicle * list Notification) : A :=
  fst (fst r).
Definition vehiclesAfter {A} (r : A * list Vehicle * list Notification)
  : list Vehicle := snd (fst r).
Definition notifications {A} (r : A * list Vehicle * list Notification)
  : list Notification := snd r.

Declare Scope handler_scope.
Delimit Scope handler_scope with handler.
Notation "x <- m ;; k" := (bind m (fun x => k))
  (at level 61, m at next level, right associativity) : handler_scope.
Notation "m ;; k" := (bind m (fun _ => k))
  (at level 61, right associativity) : handler_scope.

Definition nl : string := String (ascii_of_nat 10) EmptyString.

(** The warning-sign emoji that opens the alert (U+26A0 U+FE0F) lies
    outside the modelled code units; it is kept as its UTF-8 bytes. *)
Definition warningSign : string :=
  String (ascii_of_nat 226) (String (ascii_of_nat 154)
 (String (ascii_of_nat 160) (String (ascii_of_nat 239)
 (String (ascii_of_nat 184) (String (ascii_of_nat 143) EmptyString))))).

(** The template literal passed to [alert]. *)
Definition alreadyCheckedInMessage (number : string) : string :=
  (warningSign ++ " Vehicle Already Checked In!" ++ nl ++ nl
   ++ number ++ " is already parked and has not checked out yet."
   ++ nl ++ nl
   ++ "Please check out the vehicle first before checking in again.")%string.

(** The [description] passed to [toast.error]. *)
Definition alreadyParkedDescription (number : string) : string :=
  (number ++ " is already parked. Please check out first.")%string.

(** The predicate of [vehicles.find(..)] in [handleCheckin]. *)
Definition isActiveWithNumber (number : string) (v : Vehicle) : bool :=
  String.eqb (vehicleNumber v) number && Status_eqb (status v) active.

(** [{ ...vehicle, id: .., checkInTime: .., status: 'active' }] *)
Definition newVehicle (vehicle : CheckinData) (dateNow newDate : Z)
  : Vehicle :=
  {| id := JS.toString dateNow;
     vehicleNumber := data_vehicleNumber vehicle;
     vehicleType := data_vehicleType vehicle;
     ownerName := data_ownerName vehicle;
     phoneNumber := data_phoneNumber vehicle;
     checkInTime := newDate;
     checkOutTime := data_checkOutTime vehicle;
     duration := data_duration vehicle;
     charge := data_charge vehicle;
     status := active |}.

(** [handleCheckin], lines 33-55.  [dateNow] is the reading of
    [Date.now()], [newDate] that of [new Date()]. *)
Definition handleCheckin (vehicle : CheckinData) (dateNow newDate : Z)
  : Handler bool :=
  (vehicles <- getVehicles ;;
   let existingActiveVehicle :=
     find (isActiveWithNumber (data_vehicleNumber vehicle)) vehicles in
   match existingActiveVehicle with
   | Some _ =>
       alert (alreadyCheckedInMessage (data_vehicleNumber vehicle)) ;;
       toast_error "Vehicle Already Parked"
         (alreadyParkedDescription (data_vehicleNumber vehicle)) ;;
       ret false
   | None =>
       setVehicles (vehicles ++ [newVehicle vehicle dateNow newDate]) ;;
       ret true
   end)%handler.

(** [calculateCharge], lines 57-66. *)
Definition calculateCharge (hours : Q) : Z :=
  if Qle_bool hours 12 then 10
  else
    let days := JS.Math_ceil (hours / 24) in
    (days * 20)%Z.

(** [vehicle.id === vehicleId && vehicle.status === 'active'], the guard
    of the callback below. *)
Definition matches (vehicleId : string) (vehicle : Vehicle) : bool :=
  String.eqb (id vehicle) vehicleId && Status_eqb (status vehicle) active.

(** The callback of [vehicles.map(..)] in [handleCheckout].  [now] is the
    reading of [new Date()] taken for a matching record; one call of the
    handler uses one reading. *)
Definition checkoutVehicle (vehicleId : string) (now : Z) (vehicle : Vehicle)
  : Vehicle :=
  if matches vehicleId vehicle then
    let checkOutTime' := now in
    let duration' := JS.hoursBetween checkOutTime' (checkInTime vehicle) in
    let charge' := calculateCharge duration' in
    {| id := id vehicle;
       vehicleNumber := vehicleNumber vehicle;
       vehicleType := vehicleType vehicle;
       ownerName := ownerName vehicle;
       phoneNumber := phoneNumber vehicle;
       checkInTime := checkInTime vehicle;
       checkOutTime := Some checkOutTime';
       duration := Some duration';
       charge := Some charge';
       status := completed |}
  else vehicle.

(** [handleCheckout], lines 68-85: the function returns nothing and
    notifies nobody. *)
Definition handleCheckout (vehicleId : string) (now : Z) : Handler unit :=
  (vehicles <- getVehicles ;;
   setVehicles (map (checkoutVehicle vehicleId now) vehicles))%handler.

(** [vehicles.filter(v => v.status === 'active')] *)
Definition activeVehicles (vehicles : list Vehicle) : list Vehicle :=
  filter (fun v => Status_eqb (status v) active) vehicles.

(** [vehicles.filter(v => v.status === 'completed')] *)
Definition completedVehicles (vehicles : list Vehicle) : list Vehicle :=
  filter (fun v => Status_eqb (status v) completed) vehicles.

(** *** Sequences of operations

    The check-in form calls [onCheckin(formData)], where [formData] holds
    the four text fields and nothing else. *)
Definition formData (number vtype owner phone : string) : CheckinData :=
  {| data_vehicleNumber := number;
     data_vehicleType := vtype;
     data_ownerName := owner;
     data_phoneNumber := phone;
     data_checkOutTime := None;
     data_duration := None;
     data_charge := None |}.

Inductive Op : Type :=
| CheckIn (number vtype owner phone : string) (dateNow newDate : Z)
| CheckOut (vehicleId : string) (now : Z).

Definition step (vehicles : list Vehicle) (op : Op) : list Vehicle :=
  match op with
  | CheckIn number vtype owner phone dateNow newDate =>
      vehiclesAfter
        (handleCheckin (formData number vtype owner phone) dateNow newDate
           vehicles)
  | CheckOut vehicleId now =>
      vehiclesAfter (handleCheckout vehicleId now vehicles)
  end.

(** The state after a sequence of operations, starting from [vehicles].
    Each handler call reads the collection the previous call wrote: the
    calls do not overlap.  (A handler kept from an earlier render reads
    that render's collection; such overlapping calls are outside [run].) *)
Definition run (ops : list Op) (vehicles : list Vehicle) : list Vehicle :=
  fold_left step ops vehicles.

(** [useState<Vehicle[]>([])] *)
Definition initialVehicles : list Vehicle := [].

End App.

(** ** ActiveVehiclesDetails: local copy of the charge logic *)

Module ActiveVehiclesDetails.

(** [calculateCharge], the component's own definition. *)
Definition calculateCharge (hours : Q) : Z :=
  if Qle_bool hours 12 then 10
  else
    let days := JS.Math_ceil (hours / 24) in
    (days * 20)%Z.

(** [getCurrentCharge]: [currentTime] is the component's ticking clock
    state, [checkIn] the parsed check-in time. *)
Definition getCurrentCharge (currentTime checkIn : Z) : Z :=
  let duration := JS.hoursBetween currentTime checkIn in
  calculateCharge duration.

End ActiveVehiclesDetails.

(** ** ActiveVehicles: the charge function is a prop *)

Module ActiveVehicles.

Section Component.
(** [interface ActiveVehiclesProps { calculateCharge: (hours: number) => number }] *)
Variable calculateCharge : Q -> Z.

(** [getCurrentCharge]: [now] is the reading of [new Date()]. *)
Definition getCurrentCharge (now checkInTime : Z) : Z :=
  let hours := JS.hoursBetween now checkInTime in
  calculateCharge hours.
End Component.

End ActiveVehicles.

(** [<ActiveVehicles calculateCharge={calculateCharge} />]: the prop that
  [App] hands to the component, and the component's [getCurrentCharge]
  with it. *)
Definition App_ActiveVehicles_calculateCharge : Q -> Z := App.calculateCharge.

Definition App_ActiveVehicles_getCurrentCharge : Z -> Z -> Z :=
ActiveVehicles.getCurrentCharge App_ActiveVehicles_calculateCharge.

(** ** Sample data (Scenario A of the specification) *)

Module Sample.
Import App.

Definition asha : CheckinData :=
  formData "MH12AB1234" "Car" "Asha" "9876543210".

(** Asha's car, checked in at clock reading 1000. *)
Definition parked : Vehicle := newVehicle asha 1000 1000.

(** The same record after a checkout thirty hours later. *)
Definition left : Vehicle :=
  checkoutVehicle "1000" (1000 + 30 * JS.msPerHour) parked.

(** Another car, checked in within the same millisecond. *)
Definition ravi : CheckinData :=
  formData "KA01C123" "Bike" "Ravi" "9123456780".

Definition parkedToo : Vehicle := newVehicle ravi 1000 1000.

(** The same car, had it been checked in one second later. *)
Definition parkedLater : Vehicle := newVehicle ravi 2000 2000.
End Sample.

(** ** Regular expressions, as far as the validators use them *)

Module Regex.

(** Character classes, concatenation and alternation; a bounded
    repetition [r{m,n}] unfolds into these. *)
Inductive regex : Type :=
| Empty
| Eps
| Class (p : ascii -> bool)
| Cat (r1 r2 : regex)
| Alt (r1 r2 : regex).

(** [r{n}] *)
Fixpoint times (n : nat) (r : regex) : regex :=
  match n with
  | O => Eps
  | S n' => Cat r (times n' r)
  end.

(** [r{0,n}] *)
Fixpoint upto (n : nat) (r : regex) : regex :=
  match n with
  | O => Eps
  | S n' => Alt Eps (Cat r (upto n' r))
  end.

(** [r{m,n}] *)
Definition Rep (m n : nat) (r : regex) : regex :=
  Cat (times m r) (upto (n - m) r).

Fixpoint nullable (r : regex) : bool :=
  match r with
  | Empty => false
  | Eps => true
  | Class _ => false
  | Cat r1 r2 => nullable r1 && nullable r2
  | Alt r1 r2 => nullable r1 || nullable r2
  end.

(** The derivative of [r] by the character [c]. *)
Fixpoint deriv (c : ascii) (r : regex) : regex :=
  match r with
  | Empty => Empty
  | Eps => Empty
  | Class p => if p c then Eps else Empty
  | Cat r1 r2 =>
      if nullable r1 then Alt (Cat (deriv c r1) r2) (deriv c r2)
      else Cat (deriv c r1) r2
  | Alt r1 r2 => Alt (deriv c r1) (deriv c r2)
  end.

(** [/^r$/.test(s)]: the whole of [s] matches [r]. *)
Fixpoint test (r : regex) (s : string) : bool :=
  match s with
  | EmptyString => nullable r
  | String c s' => test (deriv c r) s'
  end.

(** The strings a regular expression denotes. *)
Fixpoint lang (r : regex) (s : string) : Prop :=
  match r with
  | Empty => False
  | Eps => s = EmptyString
  | Class p => exists c, s = String c EmptyString /\ p c = true
  | Cat r1 r2 =>
      exists s1 s2, s = (s1 ++ s2)%string /\ lang r1 s1 /\ lang r2 s2
  | Alt r1 r2 => lang r1 s \/ lang r2 s
  end.

(** Code units between two bounds, inclusive. *)
Definition between (lo hi : nat) (c : ascii) : bool :=
  (lo <=? nat_of_ascii c)%nat && (nat_of_ascii c <=? hi)%nat.

(** [[A-Z]] *)
Definition upperAZ : ascii -> bool := between 65 90.
(** [\d] *)
Definition digit : ascii -> bool := between 48 57.
(** [[6-9]] *)
Definition digit69 : ascii -> bool := between 54 57.

(** [\s], among the code units below 256: tab, line feed, vertical tab,
    form feed, carriage return, space and no-break space. *)
Definition whitespace (c : ascii) : bool :=
  between 9 13 c || (nat_of_ascii c =? 32)%nat
  || (nat_of_ascii c =? 160)%nat.

End Regex.

(** ** The check-in form: input validation *)

Module VehicleCheckin.
Import Regex.

(** [s.replace(/\s/g, '')] *)
Fixpoint removeWhitespace (s : string) : string :=
  match s with
  | EmptyString => EmptyString
  | String c s' =>
      if whitespace c then removeWhitespace s'
      else String c (removeWhitespace s')
  end.

(** [/^[A-Z]{2}\d{1,2}[A-Z]{1,2}\d{3,4}$/] *)
Definition vehiclePattern : regex :=
  Cat (Rep 2 2 (Class upperAZ))
 (Cat (Rep 1 2 (Class digit))
 (Cat (Rep 1 2 (Class upperAZ))
      (Rep 3 4 (Class digit)))).

(** [validateVehicleNumber], lines 32-36. *)
Definition validateVehicleNumber (number : string) : bool :=
  let cleanNumber := removeWhitespace number in
  let pattern := vehiclePattern in
  test pattern cleanNumber.

(** [/^[6-9]\d{9}$/] *)
Definition phonePattern : regex :=
  Cat (Class digit69) (Rep 9 9 (Class digit)).

(** [validatePhoneNumber], lines 38-41. *)
Definition validatePhoneNumber (phone : string) : bool :=
  let pattern := phonePattern in
  test pattern phone.

(** [c.toUpperCase()] on one code unit: [a-z] go to [A-Z].  This is what
    JavaScript does on ASCII; on other code units JavaScript applies the
    Unicode case mapping, which the model does not follow. *)
Definition upperChar (c : ascii) : ascii :=
  if between 97 122 c then ascii_of_nat (nat_of_ascii c - 32) else c.

(** [s.toUpperCase()], on ASCII strings. *)
Fixpoint toUpperCase (s : string) : string :=
  match s with
  | EmptyString => EmptyString
  | String c s' => String (upperChar c) (toUpperCase s')
  end.

(** A string of ASCII code units. *)
Fixpoint isAscii (s : string) : bool :=
  match s with
  | EmptyString => true
  | String c s' => (nat_of_ascii c <? 128)%nat && isAscii s'
  end.

(** A string is truthy when it is not empty. *)
Definition truthy (s : string) : bool :=
  match s with
  | EmptyString => false
  | String _ _ => true
  end.

Definition vehicleNumberError : string :=
  "Invalid vehicle number format (e.g., MH 12 AB 1234)".

(** [handleVehicleNumberChange], lines 43-51: the new value of the form's
    [vehicleNumber] field and of [errors.vehicleNumber]. *)
Definition handleVehicleNumberChange (value : string) : string * string :=
  let upperValue := toUpperCase value in
  (upperValue,
   if truthy upperValue && negb (validateVehicleNumber upperValue)
   then vehicleNumberError
   else EmptyString).

(** The plate-number predicate in the words of the specification: strip
    all whitespace, case-fold to uppercase, then require the pattern in
    full. *)
Definition IsValidPlateNumber_spec (s : string) : bool :=
  test vehiclePattern (toUpperCase (removeWhitespace s)).

(** The shape the pattern describes: 2 letters, 1-2 digits, 1-2 letters,
    3-4 digits, and nothing else. *)
Fixpoint allChars (p : ascii -> bool) (s : string) : bool :=
  match s with
  | EmptyString => true
  | String c s' => p c && allChars p s'
  end.

Definition PlateShape (s : string) : Prop :=
  exists l1 d1 l2 d2 : string,
    s = (l1 ++ d1 ++ l2 ++ d2)%string
    /\ String.length l1 = 2%nat /\ allChars upperAZ l1 = true
    /\ (1 <= String.length d1 <= 2)%nat /\ allChars digit d1 = true
    /\ (1 <= String.length l2 <= 2)%nat /\ allChars upperAZ l2 = true
    /\ (3 <= String.length d2 <= 4)%nat /\ allChars digit d2 = true.

End VehicleCheckin.

(** ** The properties under study, stated on the handlers *)

Module Properties.
Import App.

(** No two records with the same vehicle number are both active. *)
Definition UniqueActive (vs : list Vehicle) : Prop :=
  forall i j vi vj,
    nth_error vs i = Some vi -> nth_error vs j = Some vj ->
    vehicleNumber vi = vehicleNumber vj ->
    status vi = active -> status vj = active ->
    i = j.

Definition present {A : Type} (o : option A) : bool :=
  match o with
  | Some _ => true
  | None => false
  end.

(** The three optional fields are present together, and exactly on
    completed records. *)
Definition AtomicGroup (v : Vehicle) : Prop :=
  (present (checkOutTime v) = true <-> present (duration v) = true)
  /\ (present (duration v) = true <-> present (charge v) = true)
  /\ (present (charge v) = true <-> status v = completed).

(** Position [i] holds a different record (or none) after the update. *)
Definition changedAt (vs vs' : list Vehicle) (i : nat) : Prop :=
  nth_error vs' i <> nth_error vs i.

Definition AtMostOneChanged (vs vs' : list Vehicle) : Prop :=
  forall i j, changedAt vs vs' i -> changedAt vs vs' j -> i = j.





(** "CheckOut returns the updated record": the record can be read off
    the value the handler returns. *)
Definition CheckoutReturnsRecord : Prop :=
  exists read : unit -> Vehicle,
    forall v now, status v = active ->
      read (returned (handleCheckout (id v) now [v]))
      = checkoutVehicle (id v) now v.

(** The [Date.now()] readings of the check-ins of a sequence. *)
Fixpoint checkInReadings (ops : list Op) : list Z :=
  match ops with
  | [] => []
  | CheckIn _ _ _ _ dateNow _ :: ops' => dateNow :: checkInReadings ops'
  | CheckOut _ _ :: ops' => checkInReadings ops'
  end.

(** The normal form of a plate in the words of the specification:
    upper case, whitespace ignored. *)
Definition normalizePlate (s : string) : string :=
  VehicleCheckin.toUpperCase (VehicleCheckin.removeWhitespace s).

(** "No two active records have the same normalized vehicle number." *)
Definition UniqueActivePlates (vs : list Vehicle) : Prop :=
  forall i j vi vj,
    nth_error vs i = Some vi -> nth_error vs j = Some vj ->
    normalizePlate (vehicleNumber vi) = normalizePlate (vehicleNumber vj) ->
    status vi = active -> status vj = active ->
    i = j.

(** "CheckIn fails exactly when a record with the same normalized vehicle
    number is active." *)
Definition CheckInBlocksNormalizedDuplicates : Prop :=
  forall vs data dateNow newDate,
    returned (handleCheckin data dateNow newDate vs) = false
    <-> exists v, In v vs
                  /\ normalizePlate (vehicleNumber v)
                     = normalizePlate (data_vehicleNumber data)
                  /\ status v = active.

(** "A successful check-in creates a record with a new unique id." *)
Definition CheckInIdIsNew : Prop :=
  forall ops data dateNow newDate v,
    returned (handleCheckin data dateNow newDate (run ops initialVehicles))
    = true ->
    In v (run ops initialVehicles) ->
    id v <> id (newVehicle data dateNow newDate).

End Properties.

(** ** Further string primitives: lower case and substring search *)

Module JSString.

(** [c.toLowerCase()] on one code unit: [A-Z] go to [a-z].  This is
    JavaScript's behaviour on ASCII only: the Unicode case mapping of
    other code units, and its dependence on the neighbouring characters,
    are not modelled, so what is proved of a lower-cased query is proved
    for ASCII queries. *)
Definition lowerChar (c : ascii) : ascii :=
  if Regex.between 65 90 c then ascii_of_nat (nat_of_ascii c + 32) else c.

(** [s.toLowerCase()], on ASCII strings. *)
Fixpoint toLowerCase (s : string) : string :=
  match s with
  | EmptyString => EmptyString
  | String c s' => String (lowerChar c) (toLowerCase s')
  end.

(** [s.startsWith(q)] *)
Fixpoint startsWith (s q : string) {struct q} : bool :=
  match q, s with
  | EmptyString, _ => true
  | String _ _, EmptyString => false
  | String a q', String b s' => Ascii.eqb a b && startsWith s' q'
  end.

(** [s.includes(q)]: [q] occurs in [s] at some position. *)
Fixpoint includes (s q : string) : bool :=
  startsWith s q
  || match s with
     | EmptyString => false
     | String _ s' => includes s' q
     end.

End JSString.

(** ** ActiveVehicles: the list of parked vehicles (further functions) *)

Module ActiveVehiclesView.

(** [export interface Vehicle] of the component, with [checkInTime]
    already converted to a [Date] by [fetchActiveVehicles]. *)
Record Vehicle : Type := mkVehicle {
  _id : string;
  vehicleNumber : string;
  vehicleType : string;
  ownerName : string;
  phoneNumber : string;
  checkInTime : Z;
  checkOutTime : option Z;
  duration : option Q;
  charge : option Z;
  status : string
}.

(** [formatDuration]: [now] is the reading of [new Date()].  [diff] is a
    whole number of milliseconds; [%] is the remainder that takes the sign
    of the dividend. *)
Definition formatDuration (now checkInTime : Z) : string :=
  let diff := (now - checkInTime)%Z in
  let hours := (diff / (1000 * 60 * 60))%Z in
  let minutes := (Z.rem diff (1000 * 60 * 60) / (1000 * 60))%Z in
  if (hours =? 0)%Z then (JS.toString minutes ++ " min")%string
  else (JS.toString hours ++ "h " ++ JS.toString minutes ++ "m")%string.

(** The predicate of [vehicles.filter(..)] in [filteredVehicles]. *)
Definition matchesQuery (searchQuery : string) (v : Vehicle) : bool :=
  JSString.includes (JSString.toLowerCase (vehicleNumber v))
                    (JSString.toLowerCase searchQuery).

(** [filteredVehicles] *)
Definition filteredVehicles (vehicles : list Vehicle) (searchQuery : string)
  : list Vehicle :=
  filter (matchesQuery searchQuery) vehicles.

End ActiveVehiclesView.

(** ** The check-in form: phone field and submission *)

Module CheckinForm.
Import Regex VehicleCheckin.

(** [s.replace(/\D/g, '')] *)
Fixpoint removeNonDigits (s : string) : string :=
  match s with
  | EmptyString => EmptyString
  | String c s' =>
      if digit c then String c (removeNonDigits s') else removeNonDigits s'
  end.

Definition phoneNumberError : string :=
  "Invalid phone number (10 digits, starting with 6-9)".

(** [handlePhoneNumberChange], lines 53-61: the new value of the form's
    [phoneNumber] field and of [errors.phoneNumber]. *)
Definition handlePhoneNumberChange (value : string) : string * string :=
  let digitsOnly := removeNonDigits value in
  (digitsOnly,
   if truthy digitsOnly && negb (validatePhoneNumber digitsOnly)
   then phoneNumberError
   else EmptyString).

(** The form's [formData] state. *)
Record FormData : Type := mkFormData {
  vehicleNumber : string;
  vehicleType : string;
  ownerName : string;
  phoneNumber : string
}.

(** The form's [errors] state. *)
Record Errors : Type := mkErrors {
  vehicleNumberMessage : string;
  phoneNumberMessage : string
}.

(** The state of the component. *)
Record State : Type := mkState {
  formData : FormData;
  errors : Errors;
  showQRCode : bool;
  lastCheckedInVehicle : option App.Vehicle
}.

Definition emptyFormData : FormData :=
  {| vehicleNumber := ""; vehicleType := ""; ownerName := "";
     phoneNumber := "" |}.

Definition emptyErrors : Errors :=
  {| vehicleNumberMessage := ""; phoneNumberMessage := "" |}.

(** [useState] initial values. *)
Definition initialState : State :=
  {| formData := emptyFormData; errors := emptyErrors;
     showQRCode := false; lastCheckedInVehicle := None |}.

(** What the request to the server comes back with: [Failed] when [fetch]
    or the reading of the body throws, otherwise [response.ok] and
    [result.message] (empty when absent). *)
Inductive ServerReply : Type :=
| Failed
| Replied (ok : bool) (message : string).

(** What the user and the console are shown. *)
Inductive Event : Type :=
| ToastError (message : string)
| ToastSuccess (title description : string)
| ConsoleError
| FromApp (n : App.Notification).

(** [formData] as the argument of [onCheckin]. *)
Definition toCheckinData (f : FormData) : App.CheckinData :=
  App.formData (vehicleNumber f) (vehicleType f) (ownerName f)
               (phoneNumber f).

(** [result.message || 'Vehicle check-in failed'] *)
Definition messageOrDefault (message : string) : string :=
  if truthy message then message else "Vehicle check-in failed".

Section Component.
(** [interface VehicleCheckinProps { onCheckin: (data) => boolean }]; the
    callback acts on the state of the parent. *)
Variable onCheckin : App.CheckinData -> App.Handler bool.

(** [handleSubmit], lines 63-131.  [reply] is what the server answers;
    [dateNow] and [newDate] are the readings of [Date.now()] and
    [new Date()] for the record shown with the QR code.  The result is the
    new state of the form, the new state of the parent and what was
    shown. *)
Definition handleSubmit (st : State) (reply : ServerReply)
    (dateNow newDate : Z) (vehicles : list App.Vehicle)
  : State * list App.Vehicle * list Event :=
  let f := formData st in
  if negb (truthy (vehicleNumber f)) || negb (truthy (vehicleType f))
     || negb (truthy (ownerName f)) || negb (truthy (phoneNumber f))
  then (st, vehicles, [ToastError "Please fill all fields"])
  else if negb (validateVehicleNumber (vehicleNumber f))
  then (st, vehicles, [ToastError "Invalid vehicle number format"])
  else if negb (validatePhoneNumber (phoneNumber f))
  then (st, vehicles, [ToastError "Invalid phone number"])
  else
    match reply with
    | Failed =>
        (st, vehicles,
         [ConsoleError; ToastError "Server error: Unable to save vehicle"])
    | Replied false message =>
        (st, vehicles, [ToastError (messageOrDefault message)])
    | Replied true _ =>
        let '(checkinSuccess, vehicles', shown) :=
          onCheckin (toCheckinData f) vehicles in
        if negb checkinSuccess
        then (st, vehicles', map FromApp shown)
        else
          let checkedInVehicle :=
            App.newVehicle (toCheckinData f) dateNow newDate in
          ({| formData := emptyFormData;
              errors := emptyErrors;
              showQRCode := true;
              lastCheckedInVehicle := Some checkedInVehicle |},
           vehicles',
           map FromApp shown
           ++ [ToastSuccess "Vehicle checked in successfully!"
                 (vehicleNumber f ++ " has been parked")%string])
    end.
End Component.

(** [<VehicleCheckin onCheckin={handleCheckin} />] as mounted by [App];
    [appDateNow] and [appNewDate] are the clock readings of
    [handleCheckin]. *)
Definition App_handleSubmit (st : State) (reply : ServerReply)
    (appDateNow appNewDate dateNow newDate : Z)
    (vehicles : list App.Vehicle)
  : State * list App.Vehicle * list Event :=
  handleSubmit
    (fun data => App.handleCheckin data appDateNow appNewDate)
    st reply dateNow newDate vehicles.

(** A record that went through the form's checks. *)
Definition WellFormed (v : App.Vehicle) : Prop :=
  validateVehicleNumber (App.vehicleNumber v) = true
  /\ validatePhoneNumber (App.phoneNumber v) = true
  /\ App.vehicleType v <> EmptyString
  /\ App.ownerName v <> EmptyString.

(** What the desk does: submit the form in some state, or check a vehicle
    out. *)
Inductive DeskOp : Type :=
| Submit (f : FormData) (reply : ServerReply)
         (appDateNow appNewDate dateNow newDate : Z)
| CheckOutById (vehicleId : string) (now : Z).

Definition deskStep (vehicles : list App.Vehicle) (op : DeskOp)
  : list App.Vehicle :=
  match op with
  | Submit f reply appDateNow appNewDate dateNow newDate =>
      snd (fst (App_handleSubmit
                  {| formData := f; errors := emptyErrors;
                     showQRCode := false; lastCheckedInVehicle := None |}
                  reply appDateNow appNewDate dateNow newDate vehicles))
  | CheckOutById vehicleId now =>
      App.vehiclesAfter (App.handleCheckout vehicleId now vehicles)
  end.

Definition deskRun (ops : list DeskOp) (vehicles : list App.Vehicle)
  : list App.Vehicle :=
  fold_left deskStep ops vehicles.

End CheckinForm.

(** ** Dashboard: today's revenue *)

Module Dashboard.

(** [export interface Vehicle] of the dashboard; times are the ISO strings
    the server sends. *)
Record Vehicle : Type := mkVehicle {
  _id : option string;
  vehicleNumber : string;
  vehicleType : string;
  ownerName : string;
  phoneNumber : string;
  checkInTime : string;
  checkOutTime : option string;
  duration : option Q;
  charge : option Z;
  status : App.Status
}.

(** [v.charge || 0] *)
Definition chargeOrZero (v : Vehicle) : Z :=
  match charge v with
  | Some c => c
  | None => 0
  end.

(** [completedToday.reduce((sum, v) => sum + (v.charge || 0), 0)] *)
Definition todayRevenue (completedToday : list Vehicle) : Z :=
  fold_left (fun sum v => (sum + chargeOrZero v)%Z) completedToday 0%Z.

End Dashboard.

(** ** ParkingHistory: the vehicle types of the filter *)

Module ParkingHistory.

(** [export interface Vehicle] of the history view, with the times already
    converted to [Date]s by [fetchVehicles]. *)
Record Vehicle : Type := mkVehicle {
  _id : string;
  vehicleNumber : string;
  vehicleType : string;
  ownerName : string;
  phoneNumber : string;
  checkInTime : Z;
  checkOutTime : option Z;
  duration : option Q;
  charge : option Z;
  status : string
}.

(** [set.add(x)]: a set keeps insertion order and ignores a value it
    already has. *)
Definition setAdd (set : list string) (x : string) : list string :=
  if existsb (String.eqb x) set then set else set ++ [x].

(** [Array.from(new Set(xs))] *)
Definition uniqueInOrder (xs : list string) : list string :=
  fold_left setAdd xs [].

(** [vehicleTypes]:
    [Array.from(new Set(vehicles.map((v) => v.vehicleType)))] *)
Definition vehicleTypes (vehicles : list Vehicle) : list string :=
  uniqueInOrder (map vehicleType vehicles).

End ParkingHistory.

(** * Properties of the charge calculator *)

Section ChargeFacts.
Open Scope Q_scope.

Lemma calculateCharge_flat (h : Q) :
  h <= 12 -> App.calculateCharge h = 10%Z.
Proof.
  intros Hle. unfold App.calculateCharge.
  apply Qle_bool_iff in Hle. now rewrite Hle.
Qed.

Lemma calculateCharge_daily (h : Q) :
  12 < h -> App.calculateCharge h = (Qceiling (h / 24) * 20)%Z.
Proof.
  intros Hlt. unfold App.calculateCharge, JS.Math_ceil.
  destruct (Qle_bool h 12) eqn:E; [|reflexivity].
  apply Qle_bool_iff in E. exfalso. apply (Qlt_irrefl 12).
  eapply Qlt_le_trans; eauto.
Qed.

(** The ceiling of [h / 24] is the number of started 24-hour blocks. *)
Lemma ceil_div24_blocks (h : Q) :
  let k := Qceiling (h / 24) in
  inject_Z (24 * (k - 1)) < h /\ h <= inject_Z (24 * k).
Proof.
  intros k. subst k.
  pose proof (Qceiling_lt (h / 24)) as Hlo.
  pose proof (Qle_ceiling (h / 24)) as Hhi.
  set (k := Qceiling (h / 24)) in *.
  assert (E : 24 * (h / 24) == h) by (apply Qmult_div_r; discriminate).
  split.
  - rewrite inject_Z_mult, <- E.
    apply Qmult_lt_l; [reflexivity | exact Hlo].
  - rewrite inject_Z_mult, <- E.
    apply Qmult_le_l; [reflexivity | exact Hhi].
Qed.

Lemma ceil_div24_pos (h : Q) : 0 < h -> (1 <= Qceiling (h / 24))%Z.
Proof.
  intros Hpos.
  pose proof (Qle_ceiling (h / 24)) as Hhi.
  assert (Hq : 0 < h / 24).
  { apply Qlt_shift_div_l; [reflexivity | now rewrite Qmult_0_l]. }
  assert (Hk : 0 < inject_Z (Qceiling (h / 24)))
    by (eapply Qlt_le_trans; eauto).
  rewrite <- (Zlt_Qlt 0) in Hk. lia.
Qed.



(** C1. Applied to a non-negative duration [h], the charge calculator
    returns 10 when [h <= 12]; otherwise it returns 20 times the ceiling
    of [h / 24], that is 20 times the number [k] of started 24-hour
    blocks ([24 (k - 1) < h <= 24 k]).  At the boundaries:
    12 gives 10, 12.0001 gives 20, 24 gives 20, 24.0001 gives 40,
    48 gives 40 and 0 gives 10. *)
Theorem calculateCharge_tiers :
  forall h : Q, 0 <= h ->
    (h <= 12 -> App.calculateCharge h = 10%Z)
    /\ (12 < h ->
        exists k : Z,
          k = JS.Math_ceil (h / 24)
          /\ inject_Z (24 * (k - 1)) < h /\ h <= inject_Z (24 * k)
          /\ App.calculateCharge h = (k * 20)%Z)
    /\ App.calculateCharge 12 = 10%Z
    /\ App.calculateCharge (120001 # 10000) = 20%Z
    /\ App.calculateCharge 24 = 20%Z
    /\ App.calculateCharge (240001 # 10000) = 40%Z
    /\ App.calculateCharge 48 = 40%Z
    /\ App.calculateCharge 0 = 10%Z.
Proof.
  intros h _. split; [apply calculateCharge_flat|].
  split; [|repeat split; reflexivity].
  intros Hlt. exists (Qceiling (h / 24)).
  destruct (ceil_div24_blocks h) as [Hlo Hhi].
  repeat split; auto using calculateCharge_daily.
Qed.

Lemma calculateCharge_tiers_witness :
  0 <= 30 /\ App.calculateCharge 30 = 40%Z.
Proof.
  split; [discriminate|].
  destruct (calculateCharge_tiers 30) as (_ & Hday & _);
    [discriminate|].
  destruct Hday as (k & Hk & _ & _ & Hc); [reflexivity|].
  rewrite Hc, Hk. reflexivity.
Defined.

(** C6. The charge calculator is monotonically non-decreasing on
    non-negative durations. *)
Theorem calculateCharge_monotone :
  forall h1 h2 : Q, 0 <= h1 -> h1 <= h2 ->
    (App.calculateCharge h1 <= App.calculateCharge h2)%Z.
Proof.
  intros h1 h2 H0 H12.
  destruct (Qlt_le_dec 12 h1) as [Hbig1 | Hsmall1].
  - assert (Hbig2 : 12 < h2) by (eapply Qlt_le_trans; eauto).
    rewrite !calculateCharge_daily by assumption.
    apply Z.mul_le_mono_nonneg_r; [lia|].
    apply Qceiling_resp_le.
    apply Qmult_le_compat_r; [exact H12 | discriminate].
  - rewrite (calculateCharge_flat h1 Hsmall1).
    destruct (Qlt_le_dec 12 h2) as [Hbig2 | Hsmall2].
    + rewrite (calculateCharge_daily h2 Hbig2).
      assert (Hpos : 0 < h2) by (eapply Qlt_trans; [|exact Hbig2]; reflexivity).
      pose proof (ceil_div24_pos h2 Hpos). lia.
    + rewrite (calculateCharge_flat h2 Hsmall2). lia.
Qed.

Lemma calculateCharge_monotone_witness :
  0 <= 5 /\ 5 <= 30
  /\ (App.calculateCharge 5 <= App.calculateCharge 30)%Z.
Proof.
  split; [discriminate|]. split; [discriminate|].
  apply (calculateCharge_monotone 5 30); discriminate.
Defined.

End ChargeFacts.

(** * Basic equations of the handlers *)

Section HandlerFacts.
Import App.

Lemma handleCheckout_unfold (vehicleId : string) (now : Z) vs :
  handleCheckout vehicleId now vs
  = (tt, map (checkoutVehicle vehicleId now) vs, []).
Proof. reflexivity. Qed.

Lemma handleCheckin_blocked data dateNow newDate vs v :
  find (isActiveWithNumber (data_vehicleNumber data)) vs = Some v ->
  handleCheckin data dateNow newDate vs
  = (false, vs,
     [Alert (alreadyCheckedInMessage (data_vehicleNumber data));
      ToastError "Vehicle Already Parked"
        (alreadyParkedDescription (data_vehicleNumber data))]).
Proof.
  intros Hfind. unfold handleCheckin, bind, getVehicles.
  rewrite Hfind. reflexivity.
Qed.

Lemma handleCheckin_accepted data dateNow newDate vs :
  find (isActiveWithNumber (data_vehicleNumber data)) vs = None ->
  handleCheckin data dateNow newDate vs
  = (true, vs ++ [newVehicle data dateNow newDate], []).
Proof.
  intros Hfind. unfold handleCheckin, bind, getVehicles.
  rewrite Hfind. reflexivity.
Qed.

Lemma Status_eqb_eq a b : Status_eqb a b = true <-> a = b.
Proof. destruct a, b; simpl; split; congruence. Qed.

Lemma isActiveWithNumber_true number v :
  isActiveWithNumber number v = true
  <-> vehicleNumber v = number /\ status v = active.
Proof.
  unfold isActiveWithNumber.
  rewrite andb_true_iff, String.eqb_eq, Status_eqb_eq. tauto.
Qed.

Lemma matches_true vehicleId v :
  matches vehicleId v = true <-> id v = vehicleId /\ status v = active.
Proof.
  unfold matches.
  rewrite andb_true_iff, String.eqb_eq, Status_eqb_eq. tauto.
Qed.

Lemma checkoutVehicle_skip vehicleId now v :
  id v <> vehicleId \/ status v = completed ->
  checkoutVehicle vehicleId now v = v.
Proof.
  intros H. unfold checkoutVehicle.
  destruct (matches vehicleId v) eqn:E; [|reflexivity].
  apply matches_true in E. destruct E as [E1 E2].
  destruct H as [H | H]; [contradiction | congruence].
Qed.

Lemma checkoutVehicle_hit vehicleId now v :
  id v = vehicleId -> status v = active ->
  checkoutVehicle vehicleId now v
  = {| id := id v;
       vehicleNumber := vehicleNumber v;
       vehicleType := vehicleType v;
       ownerName := ownerName v;
       phoneNumber := phoneNumber v;
       checkInTime := checkInTime v;
       checkOutTime := Some now;
       duration := Some (JS.hoursBetween now (checkInTime v));
       charge :=
         Some (calculateCharge (JS.hoursBetween now (checkInTime v)));
       status := completed |}.
Proof.
  intros Hid Hst. unfold checkoutVehicle.
  assert (E : matches vehicleId v = true) by (apply matches_true; auto).
  rewrite E. reflexivity.
Qed.

(** Either the callback leaves the record alone, or the record had the
    given id and was active. *)
Lemma checkoutVehicle_cases vehicleId now v :
  checkoutVehicle vehicleId now v = v
  \/ (id v = vehicleId /\ status v = active
      /\ status (checkoutVehicle vehicleId now v) = completed).
Proof.
  destruct (matches vehicleId v) eqn:E.
  - right. apply matches_true in E. destruct E as [E1 E2].
    rewrite (checkoutVehicle_hit vehicleId now v E1 E2). auto.
  - left. unfold checkoutVehicle.
    now rewrite E.
Qed.

Lemma checkoutVehicle_id vehicleId now v :
  id (checkoutVehicle vehicleId now v) = id v.
Proof.
  unfold checkoutVehicle.
  destruct (matches vehicleId v); reflexivity.
Qed.

Lemma checkoutVehicle_vehicleNumber vehicleId now v :
  vehicleNumber (checkoutVehicle vehicleId now v) = vehicleNumber v.
Proof.
  unfold checkoutVehicle.
  destruct (matches vehicleId v); reflexivity.
Qed.

Lemma checkoutVehicle_stays_completed vehicleId now v :
  status v = completed ->
  checkoutVehicle vehicleId now v = v.
Proof. intros; apply checkoutVehicle_skip; auto. Qed.

Lemma checkoutVehicle_active_inv vehicleId now v :
  status (checkoutVehicle vehicleId now v) = active ->
  checkoutVehicle vehicleId now v = v /\ status v = active.
Proof.
  intros H. destruct (checkoutVehicle_cases vehicleId now v) as [E | (_ & _ & E)].
  - rewrite E in *. auto.
  - congruence.
Qed.

End HandlerFacts.

(** * The lifecycle: invariants of check-in and check-out *)

Section LifecycleFacts.
Import App Properties.

Lemma nth_error_checkout vehicleId now vs i :
  nth_error (map (checkoutVehicle vehicleId now) vs) i
  = option_map (checkoutVehicle vehicleId now) (nth_error vs i).
Proof. apply nth_error_map. Qed.

Lemma run_app ops1 ops2 vs :
  run (ops1 ++ ops2) vs = run ops2 (run ops1 vs).
Proof. apply fold_left_app. Qed.

Lemma run_snoc ops op vs :
  run (ops ++ [op]) vs = step (run ops vs) op.
Proof. now rewrite run_app. Qed.

Lemma step_checkout vs vehicleId now :
  step vs (CheckOut vehicleId now) = map (checkoutVehicle vehicleId now) vs.
Proof. reflexivity. Qed.

(** An invariant of both handlers holds after every sequence. *)
Lemma run_invariant (P : list Vehicle -> Prop) :
  (forall vs op, P vs -> P (step vs op)) ->
  forall ops vs, P vs -> P (run ops vs).
Proof.
  intros Hstep ops. induction ops as [|op ops IH]; intros vs HP.
  - exact HP.
  - simpl. apply IH, Hstep, HP.
Qed.

Lemma step_checkin_cases vs number vtype owner phone dateNow newDate :
  let data := formData number vtype owner phone in
  (step vs (CheckIn number vtype owner phone dateNow newDate) = vs
   /\ exists v, find (isActiveWithNumber number) vs = Some v)
  \/ (step vs (CheckIn number vtype owner phone dateNow newDate)
      = vs ++ [newVehicle data dateNow newDate]
      /\ find (isActiveWithNumber number) vs = None).
Proof.
  intros data. unfold step. fold data.
  assert (Hn : data_vehicleNumber data = number) by reflexivity.
  destruct (find (isActiveWithNumber number) vs) as [v|] eqn:E;
    rewrite <- Hn in E.
  - left. rewrite (handleCheckin_blocked data dateNow newDate vs v E).
    split; [reflexivity | eauto].
  - right. rewrite (handleCheckin_accepted data dateNow newDate vs E).
    split; reflexivity.
Qed.

Lemma UniqueActive_checkout vehicleId now vs :
  UniqueActive vs ->
  UniqueActive (map (checkoutVehicle vehicleId now) vs).
Proof.
  intros H i j vi vj Hi Hj Hnum Hai Haj.
  rewrite nth_error_checkout in Hi, Hj.
  destruct (nth_error vs i) as [wi|] eqn:Ei; [|discriminate].
  destruct (nth_error vs j) as [wj|] eqn:Ej; [|discriminate].
  simpl in Hi, Hj. injection Hi as <-. injection Hj as <-.
  apply checkoutVehicle_active_inv in Hai, Haj.
  destruct Hai as [Ei' Hai], Haj as [Ej' Haj].
  rewrite Ei', Ej' in Hnum.
  exact (H i j wi wj Ei Ej Hnum Hai Haj).
Qed.

Lemma UniqueActive_append vs v :
  UniqueActive vs ->
  find (isActiveWithNumber (vehicleNumber v)) vs = None ->
  UniqueActive (vs ++ [v]).
Proof.
  intros H Hnone i j vi vj Hi Hj Hnum Hai Haj.
  assert (Hfresh : forall k w, nth_error vs k = Some w ->
                     vehicleNumber w = vehicleNumber v ->
                     status w = active -> False).
  { intros k w Hk Hn Ha.
    pose proof (find_none _ _ Hnone w (nth_error_In _ _ Hk)) as Hf.
    assert (Ht : isActiveWithNumber (vehicleNumber v) w = true)
      by (apply isActiveWithNumber_true; auto).
    congruence. }
  assert (Hlast : forall k w, nth_error (vs ++ [v]) k = Some w ->
                    (k < List.length vs)%nat /\ nth_error vs k = Some w
                    \/ k = List.length vs /\ w = v).
  { intros k w Hk. destruct (Nat.lt_ge_cases k (List.length vs)) as [Hlt | Hge].
    - left. split; [exact Hlt|]. now rewrite nth_error_app1 in Hk.
    - right. rewrite nth_error_app2 in Hk by exact Hge.
      destruct (k - List.length vs)%nat as [|m] eqn:Em; simpl in Hk.
      + injection Hk as <-. split; [lia | reflexivity].
      + destruct m; discriminate. }
  destruct (Hlast i vi Hi) as [[_ Hi'] | [-> ->]];
    destruct (Hlast j vj Hj) as [[_ Hj'] | [-> ->]].
  - exact (H i j vi vj Hi' Hj' Hnum Hai Haj).
  - exfalso. exact (Hfresh i vi Hi' Hnum Hai).
  - exfalso. exact (Hfresh j vj Hj' (eq_sym Hnum) Haj).
  - reflexivity.
Qed.

Lemma UniqueActive_step vs op :
  UniqueActive vs -> UniqueActive (step vs op).
Proof.
  intros H. destruct op as [number vtype owner phone dateNow newDate
                           | vehicleId now].
  - destruct (step_checkin_cases vs number vtype owner phone dateNow newDate)
      as [[-> _] | [-> Hnone]]; [exact H|].
    apply UniqueActive_append; [exact H | exact Hnone].
  - simpl. now apply UniqueActive_checkout.
Qed.

Lemma UniqueActive_initial : UniqueActive initialVehicles.
Proof. intros [|i] j vi vj Hi; discriminate. Qed.

(** C2, as the code has it.  After every sequence of check-ins and
    check-outs that starts from the empty collection, and after every
    prefix of it, no two records with the same stored vehicle number (the
    string of the form, compared as it is) are both active. *)
Theorem active_vehicle_numbers_unique :
  forall (ops : list Op) (n : nat),
    UniqueActive (run (firstn n ops) initialVehicles).
Proof.
  intros ops n. apply run_invariant.
  - intros vs op. apply UniqueActive_step.
  - apply UniqueActive_initial.
Qed.

(** C2 as stated fails for the plate as the specification normalizes it:
    the same plate typed once without and once with spaces passes the
    validator both times and is checked in twice, so two active records
    have one normalized vehicle number. *)
Lemma one_plate_is_active_twice :
  run [CheckIn "MH12AB1234" "Car" "Asha" "9876543210" 1000 1000;
       CheckIn "MH 12 AB 1234" "Car" "Asha" "9876543210" 2000 2000]
      initialVehicles
  = [Sample.parked;
     newVehicle (formData "MH 12 AB 1234" "Car" "Asha" "9876543210")
       2000 2000]
  /\ VehicleCheckin.validateVehicleNumber "MH12AB1234" = true
  /\ VehicleCheckin.validateVehicleNumber "MH 12 AB 1234" = true
  /\ normalizePlate "MH12AB1234" = normalizePlate "MH 12 AB 1234"
  /\ ~ UniqueActivePlates
        (run [CheckIn "MH12AB1234" "Car" "Asha" "9876543210" 1000 1000;
              CheckIn "MH 12 AB 1234" "Car" "Asha" "9876543210" 2000 2000]
             initialVehicles).
Proof.
  split; [reflexivity|]. split; [reflexivity|]. split; [reflexivity|].
  split; [reflexivity|].
  intros H.
  assert (E : 0%nat = 1%nat); [|discriminate E].
  apply (H 0%nat 1%nat Sample.parked
           (newVehicle (formData "MH 12 AB 1234" "Car" "Asha" "9876543210")
              2000 2000)); reflexivity.
Qed.

Lemma AtomicGroup_checkout vehicleId now v :
  AtomicGroup v -> AtomicGroup (checkoutVehicle vehicleId now v).
Proof.
  intros H.
  destruct (checkoutVehicle_cases vehicleId now v) as [-> | (Hid & Hst & _)];
    [exact H|].
  rewrite (checkoutVehicle_hit vehicleId now v Hid Hst).
  unfold AtomicGroup; simpl. tauto.
Qed.

Lemma AtomicGroup_form number vtype owner phone dateNow newDate :
  AtomicGroup (newVehicle (formData number vtype owner phone) dateNow newDate).
Proof.
  unfold AtomicGroup; simpl.
  repeat split; intros; discriminate.
Qed.

(** The spread [...vehicle] keeps whatever optional field the argument
    carries; the form's data carries none, which is what the invariant
    rests on. *)
Remark newVehicle_spreads_optional_fields data dateNow newDate :
  checkOutTime (newVehicle data dateNow newDate) = data_checkOutTime data
  /\ duration (newVehicle data dateNow newDate) = data_duration data
  /\ charge (newVehicle data dateNow newDate) = data_charge data.
Proof. repeat split. Qed.

Lemma AtomicGroup_step vs op :
  Forall AtomicGroup vs -> Forall AtomicGroup (step vs op).
Proof.
  intros H. destruct op as [number vtype owner phone dateNow newDate
                           | vehicleId now].
  - destruct (step_checkin_cases vs number vtype owner phone dateNow newDate)
      as [[-> _] | [-> _]]; [exact H|].
    apply Forall_app. split; [exact H|].
    constructor; [apply AtomicGroup_form | constructor].
  - simpl. apply Forall_map.
    eapply Forall_impl; [|exact H].
    intros v. apply AtomicGroup_checkout.
Qed.

(** C5. In every record reachable by a sequence of check-ins (as the form
    submits them) and check-outs, and at every prefix of the sequence,
    [checkOutTime] is present iff [duration] is present iff [charge] is
    present iff the status is completed. *)
Theorem optional_fields_atomic :
  forall (ops : list Op) (n : nat) (v : Vehicle),
    In v (run (firstn n ops) initialVehicles) -> AtomicGroup v.
Proof.
  intros ops n v Hin.
  assert (H : Forall AtomicGroup (run (firstn n ops) initialVehicles)).
  { apply run_invariant.
    - intros vs op. apply AtomicGroup_step.
    - constructor. }
  rewrite Forall_forall in H. exact (H v Hin).
Qed.

Lemma optional_fields_atomic_witness :
  In Sample.left
     (run (firstn 2 [CheckIn "MH12AB1234" "Car" "Asha" "9876543210" 1000 1000;
                     CheckOut "1000" (1000 + 30 * JS.msPerHour)])
          initialVehicles)
  /\ AtomicGroup Sample.left.
Proof.
  assert (Hin : In Sample.left
     (run (firstn 2 [CheckIn "MH12AB1234" "Car" "Asha" "9876543210" 1000 1000;
                     CheckOut "1000" (1000 + 30 * JS.msPerHour)])
          initialVehicles)) by (left; reflexivity).
  split; [exact Hin|].
  exact (optional_fields_atomic _ 2%nat Sample.left Hin).
Defined.



Lemma map_checkout_no_match vehicleId now vs :
  (forall v, In v vs -> id v <> vehicleId \/ status v = completed) ->
  map (checkoutVehicle vehicleId now) vs = vs.
Proof.
  induction vs as [|w vs IH]; intros H; [reflexivity|].
  simpl. rewrite checkoutVehicle_skip by (apply H; now left).
  f_equal. apply IH. intros v Hv. apply H. now right.
Qed.




(** The records a check-out changes have the given id and were active. *)
Lemma changedAt_checkout vehicleId now vs i :
  changedAt vs (map (checkoutVehicle vehicleId now) vs) i ->
  exists v, nth_error vs i = Some v /\ id v = vehicleId
            /\ status v = active.
Proof.
  unfold changedAt. rewrite nth_error_checkout.
  destruct (nth_error vs i) as [v|]; simpl; [|congruence].
  intros Hneq. exists v.
  destruct (checkoutVehicle_cases vehicleId now v) as [E | (Hid & Hst & _)].
  - rewrite E in Hneq. congruence.
  - auto.
Qed.

Lemma NoDup_map_nth_error {A B : Type} (f : A -> B) (l : list A) i j a b :
  NoDup (map f l) ->
  nth_error l i = Some a -> nth_error l j = Some b -> f a = f b -> i = j.
Proof.
  intros Hnd Hi Hj Hf.
  rewrite NoDup_nth_error in Hnd. apply Hnd.
  - rewrite length_map. apply nth_error_Some. congruence.
  - rewrite !nth_error_map, Hi, Hj. simpl. now rewrite Hf.
Qed.

(** C10, as the code has it.  A check-out keeps the length of the
    collection; every record with a different id, and every completed
    record, stays at its position unchanged; a record that changes had the
    given id and was active; when no record has the id the collection is
    unchanged; and when the ids of the collection are pairwise distinct at
    most one record changes. *)
Theorem handleCheckout_frame :
  forall (vs : list Vehicle) (vehicleId : string) (now : Z),
    let vs' := vehiclesAfter (handleCheckout vehicleId now vs) in
    List.length vs' = List.length vs
    /\ (forall i v, nth_error vs i = Some v ->
          id v <> vehicleId \/ status v = completed ->
          nth_error vs' i = Some v)
    /\ (forall i, changedAt vs vs' i ->
          exists v, nth_error vs i = Some v /\ id v = vehicleId
                    /\ status v = active)
    /\ ((forall v, In v vs -> id v <> vehicleId) -> vs' = vs)
    /\ (NoDup (map id vs) -> AtMostOneChanged vs vs').
Proof.
  intros vs vehicleId now vs'. subst vs'.
  rewrite handleCheckout_unfold. unfold vehiclesAfter. cbn [fst snd].
  split; [apply length_map|].
  split.
  { intros i v Hi Hskip. rewrite nth_error_checkout, Hi. simpl.
    now rewrite checkoutVehicle_skip. }
  split; [intros i; apply changedAt_checkout|].
  split.
  { intros H. apply map_checkout_no_match. intros v Hv. left. auto. }
  intros Hnd i j Hci Hcj.
  apply changedAt_checkout in Hci, Hcj.
  destruct Hci as (vi & Hi & Hidi & _), Hcj as (vj & Hj & Hidj & _).
  apply (NoDup_map_nth_error id vs i j vi vj Hnd Hi Hj). congruence.
Qed.

Lemma handleCheckout_frame_witness :
  NoDup (map id [Sample.parked; Sample.parkedLater])
  /\ AtMostOneChanged [Sample.parked; Sample.parkedLater]
       (vehiclesAfter
          (handleCheckout "1000" 5000 [Sample.parked; Sample.parkedLater])).
Proof.
  assert (Hnd : NoDup (map id [Sample.parked; Sample.parkedLater])).
  { constructor; [simpl; intros [H | []]; discriminate H|].
    constructor; [intros [] | constructor]. }
  split; [exact Hnd|].
  apply (handleCheckout_frame [Sample.parked; Sample.parkedLater] "1000" 5000).
  exact Hnd.
Defined.

(** C10 as stated fails when two active records share an id, which two
    check-ins within the same millisecond produce: the check-out changes
    both. *)
Lemma checkout_changes_both_records_sharing_an_id :
  run [CheckIn "MH12AB1234" "Car" "Asha" "9876543210" 1000 1000;
       CheckIn "KA01C123" "Bike" "Ravi" "9123456780" 1000 1000]
      initialVehicles
  = [Sample.parked; Sample.parkedToo]
  /\ id Sample.parked = id Sample.parkedToo
  /\ ~ AtMostOneChanged [Sample.parked; Sample.parkedToo]
         (vehiclesAfter
            (handleCheckout "1000" 5000 [Sample.parked; Sample.parkedToo])).
Proof.
  split; [reflexivity|]. split; [reflexivity|].
  intros H. specialize (H 0%nat 1%nat).
  assert (E : 0%nat = 1%nat); [|discriminate E].
  apply H; unfold changedAt; intros E; vm_compute in E; discriminate E.
Qed.

Lemma hoursBetween_after (t0 n : Z) :
  (JS.hoursBetween (t0 + n * JS.msPerHour) t0 == inject_Z n)%Q.
Proof.
  unfold JS.hoursBetween.
  replace (t0 + n * JS.msPerHour - t0)%Z with (n * JS.msPerHour)%Z by lia.
  rewrite inject_Z_mult. apply Qdiv_mult_l. discriminate.
Qed.

Lemma calculateCharge_Qeq (a b : Q) :
  (a == b)%Q -> calculateCharge a = calculateCharge b.
Proof.
  intros E. unfold calculateCharge, JS.Math_ceil.
  assert (Hle : Qle_bool a 12 = Qle_bool b 12).
  { destruct (Qle_bool a 12) eqn:Ea, (Qle_bool b 12) eqn:Eb; auto.
    - apply Qle_bool_iff in Ea. rewrite E in Ea.
      apply Qle_bool_iff in Ea. congruence.
    - apply Qle_bool_iff in Eb. rewrite <- E in Eb.
      apply Qle_bool_iff in Eb. congruence. }
  rewrite Hle. destruct (Qle_bool b 12); [reflexivity|].
  f_equal. apply Qceiling_comp. now rewrite E.
Qed.

(** C4, as the code has it.  On a collection that holds an active record
    [v] at position [i], [handleCheckout (id v) T] puts at position [i] the
    record its callback returns for [v]: [checkOutTime] is [T], [duration]
    is [(T - checkInTime) / 3600000] hours, [charge] is [calculateCharge]
    of that duration, [status] is completed and the other fields are those
    of [v].  The handler itself returns nothing.  Five hours after
    check-in the duration is 5 and the charge 10; thirty hours after it the
    duration is 30, [ceil(30/24)] is 2 and the charge 40. *)
Theorem handleCheckout_completes_active_record :
  forall (vs : list Vehicle) (i : nat) (v : Vehicle) (T : Z),
    nth_error vs i = Some v -> status v = active ->
    let r := handleCheckout (id v) T vs in
    let v' := checkoutVehicle (id v) T v in
    let hours := JS.hoursBetween T (checkInTime v) in
    nth_error (vehiclesAfter r) i = Some v'
    /\ returned r = tt
    /\ checkOutTime v' = Some T
    /\ duration v' = Some hours
    /\ charge v' = Some (calculateCharge hours)
    /\ status v' = completed
    /\ (id v', vehicleNumber v', vehicleType v', ownerName v',
        phoneNumber v', checkInTime v')
       = (id v, vehicleNumber v, vehicleType v, ownerName v,
          phoneNumber v, checkInTime v)
    /\ (T = (checkInTime v + 5 * JS.msPerHour)%Z ->
        (hours == 5)%Q /\ charge v' = Some 10%Z)
    /\ (T = (checkInTime v + 30 * JS.msPerHour)%Z ->
        (hours == 30)%Q /\ JS.Math_ceil (30 / 24) = 2%Z
        /\ charge v' = Some 40%Z).
Proof.
  intros vs i v T Hi Hact r v' hours. subst r v' hours.
  rewrite handleCheckout_unfold. unfold vehiclesAfter, returned.
  cbn [fst snd].
  rewrite nth_error_checkout, Hi. cbn [option_map].
  rewrite (checkoutVehicle_hit (id v) T v eq_refl Hact).
  cbn [id vehicleNumber vehicleType ownerName phoneNumber checkInTime
       checkOutTime duration charge status].
  repeat (split; [reflexivity|]).
  split; intros ->.
  - pose proof (hoursBetween_after (checkInTime v) 5) as E.
    split; [exact E|].
    now rewrite (calculateCharge_Qeq _ _ E).
  - pose proof (hoursBetween_after (checkInTime v) 30) as E.
    split; [exact E|]. split; [reflexivity|].
    now rewrite (calculateCharge_Qeq _ _ E).
Qed.

Lemma handleCheckout_completes_active_record_witness :
  nth_error [Sample.parked] 0 = Some Sample.parked
  /\ status Sample.parked = active
  /\ nth_error
       (vehiclesAfter
          (handleCheckout (id Sample.parked) (1000 + 30 * JS.msPerHour)
             [Sample.parked])) 0
     = Some (checkoutVehicle (id Sample.parked) (1000 + 30 * JS.msPerHour)
               Sample.parked)
  /\ charge (checkoutVehicle (id Sample.parked) (1000 + 30 * JS.msPerHour)
               Sample.parked)
     = Some 40%Z.
Proof.
  split; [reflexivity|]. split; [reflexivity|].
  destruct (handleCheckout_completes_active_record
              [Sample.parked] 0 Sample.parked (1000 + 30 * JS.msPerHour)
              eq_refl eq_refl)
    as (Hnth & _ & _ & _ & _ & _ & _ & _ & H30).
  split; [exact Hnth|].
  exact (proj2 (proj2 (H30 eq_refl))).
Defined.

(** C4 as stated fails in its last clause: [handleCheckout] returns the
    same (empty) value whatever record it updates, so the updated record
    cannot be what it returns. *)
Lemma handleCheckout_returns_no_record :
  returned (handleCheckout "1000" 2000 [Sample.parked])
  = returned (handleCheckout "1000" 3000 [Sample.parked])
  /\ checkoutVehicle "1000" 2000 Sample.parked
     <> checkoutVehicle "1000" 3000 Sample.parked
  /\ ~ CheckoutReturnsRecord.
Proof.
  assert (Hneq : checkoutVehicle "1000" 2000 Sample.parked
                 <> checkoutVehicle "1000" 3000 Sample.parked).
  { intros E. apply (f_equal checkOutTime) in E. discriminate E. }
  split; [reflexivity|]. split; [exact Hneq|].
  intros [read Hread]. apply Hneq.
  transitivity (read tt).
  - symmetry. exact (Hread Sample.parked 2000%Z eq_refl).
  - exact (Hread Sample.parked 3000%Z eq_refl).
Qed.

(** Decimal rendering is injective: different clock readings give
    different ids. *)
Lemma toString_inj (a b : Z) : JS.toString a = JS.toString b -> a = b.
Proof.
  unfold JS.toString. intros E.
  assert (Hok : forall z, NilZero.int_of_string
                            (NilZero.string_of_int (Z.to_int z))
                          = Some (Z.to_int z)).
  { intros z. apply NilZero.isi; destruct z; simpl; try discriminate;
      intros [= H]; exact (Unsigned.to_uint_nonnil _ H). }
  apply (f_equal NilZero.int_of_string) in E.
  rewrite !Hok in E. injection E as E.
  now apply DecimalZ.to_int_inj.
Qed.

(** Every id in the collection is that of a record present at the start
    or the rendering of the [Date.now()] reading of some check-in. *)
Lemma run_ids ops : forall vs v,
  In v (run ops vs) ->
  (exists w, In w vs /\ id w = id v)
  \/ (exists t, In t (checkInReadings ops) /\ id v = JS.toString t).
Proof.
  induction ops as [|op ops IH]; intros vs v Hin.
  - left. exists v. auto.
  - simpl in Hin. destruct (IH _ _ Hin) as [(w & Hw & Hid) | (t & Ht & Hid)].
    + destruct op as [number vtype owner phone dateNow newDate
                     | vehicleId now].
      * destruct (step_checkin_cases vs number vtype owner phone
                    dateNow newDate) as [[E _] | [E _]];
          rewrite E in Hw.
        -- left. eauto.
        -- apply in_app_or in Hw. destruct Hw as [Hw | [<- | []]].
           ++ left. eauto.
           ++ right. exists dateNow. split; [now left | now rewrite <- Hid].
      * rewrite step_checkout in Hw. apply in_map_iff in Hw.
        destruct Hw as (w0 & <- & Hw0).
        rewrite checkoutVehicle_id in Hid. left. eauto.
    + right. exists t. split; [|exact Hid].
      destruct op; simpl; auto.
Qed.

Lemma find_after_checkout_of_active vs i v T :
  UniqueActive vs -> nth_error vs i = Some v -> status v = active ->
  find (isActiveWithNumber (vehicleNumber v))
       (map (checkoutVehicle (id v) T) vs) = None.
Proof.
  intros Huniq Hi Hact.
  destruct (find _ _) as [w|] eqn:E; [exfalso | reflexivity].
  apply find_some in E. destruct E as [Hin Hw].
  apply isActiveWithNumber_true in Hw. destruct Hw as [Hnum Hst].
  apply In_nth_error in Hin. destruct Hin as [j Hj].
  rewrite nth_error_checkout in Hj.
  destruct (nth_error vs j) as [wj|] eqn:Ej; [|discriminate].
  simpl in Hj. injection Hj as <-.
  apply checkoutVehicle_active_inv in Hst. destruct Hst as [Esame Hst].
  rewrite Esame in Hnum.
  assert (j = i) by exact (Huniq j i wj v Ej Hi Hnum Hst Hact).
  subst j. assert (wj = v) by congruence. subst wj.
  rewrite (checkoutVehicle_hit (id v) T v eq_refl Hact) in Esame.
  apply (f_equal status) in Esame. simpl in Esame. congruence.
Qed.

(** C8, as the code has it.  [handleCheckin] returns [false] exactly when
    some record with the same vehicle number is active; it then leaves the
    collection as it is and shows an alert and an error toast that name
    the vehicle number.  Otherwise it returns [true] and appends an active
    record whose id is the decimal rendering of the [Date.now()] reading.
    Once the active record with that number is checked out, a check-in
    with the same number is accepted.  The id of the new record differs
    from every id in the collection whenever the reading differs from the
    readings of the check-ins that built the collection. *)
Theorem handleCheckin_blocks_active_duplicates :
  forall (vs : list Vehicle) (data : CheckinData) (dateNow newDate : Z),
    let number := data_vehicleNumber data in
    let r := handleCheckin data dateNow newDate vs in
    let fresh := newVehicle data dateNow newDate in
    (returned r = false <->
       exists v, In v vs /\ vehicleNumber v = number /\ status v = active)
    /\ (returned r = false ->
          vehiclesAfter r = vs
          /\ notifications r
             = [Alert (alreadyCheckedInMessage number);
                ToastError "Vehicle Already Parked"
                  (alreadyParkedDescription number)])
    /\ (exists pre post : string,
          alreadyCheckedInMessage number = (pre ++ number ++ post)%string)
    /\ (returned r = true ->
          vehiclesAfter r = vs ++ [fresh] /\ notifications r = []
          /\ status fresh = active /\ vehicleNumber fresh = number
          /\ id fresh = JS.toString dateNow)
    /\ (forall i v T,
          UniqueActive vs -> nth_error vs i = Some v ->
          status v = active -> vehicleNumber v = number ->
          let vs' := vehiclesAfter (handleCheckout (id v) T vs) in
          handleCheckin data dateNow newDate vs'
          = (true, vs' ++ [fresh], []))
    /\ (forall ops,
          vs = run ops initialVehicles ->
          ~ In dateNow (checkInReadings ops) ->
          forall v, In v vs -> id v <> id fresh).
Proof.
  intros vs data dateNow newDate number r fresh.
  assert (Hcases :
    (r = (false, vs, [Alert (alreadyCheckedInMessage number);
                      ToastError "Vehicle Already Parked"
                        (alreadyParkedDescription number)])
     /\ exists v, find (isActiveWithNumber number) vs = Some v)
    \/ (r = (true, vs ++ [fresh], [])
        /\ find (isActiveWithNumber number) vs = None)).
  { subst r. destruct (find (isActiveWithNumber number) vs) as [v|] eqn:E.
    - left. split; [|eauto]. now apply handleCheckin_blocked with (v := v).
    - right. split; [|reflexivity]. now apply handleCheckin_accepted. }
  split.
  { destruct Hcases as [[-> (v & Hv)] | [-> Hnone]]; simpl.
    - split; [intros _ | reflexivity].
      apply find_some in Hv. destruct Hv as [Hin Hv].
      apply isActiveWithNumber_true in Hv. exists v. tauto.
    - split; [discriminate|]. intros (v & Hin & Hnum & Hst). exfalso.
      pose proof (find_none _ _ Hnone v Hin) as Hf.
      assert (isActiveWithNumber number v = true)
        by (apply isActiveWithNumber_true; auto).
      congruence. }
  split.
  { destruct Hcases as [[-> _] | [-> _]]; simpl; [auto | discriminate]. }
  split.
  { exists (warningSign ++ " Vehicle Already Checked In!" ++ nl ++ nl)%string.
    exists (" is already parked and has not checked out yet." ++ nl ++ nl
            ++ "Please check out the vehicle first before checking in again."
           )%string.
    reflexivity. }
  split.
  { destruct Hcases as [[-> _] | [-> _]]; simpl; [discriminate | auto]. }
  split.
  { intros i v T Huniq Hi Hact Hnum vs'. subst vs'.
    rewrite handleCheckout_unfold. unfold vehiclesAfter. cbn [fst snd].
    apply handleCheckin_accepted. fold number. rewrite <- Hnum.
    now apply find_after_checkout_of_active with (i := i). }
  intros ops -> Hnew v Hin Heq.
  destruct (run_ids ops _ v Hin) as [(w & [] & _) | (t & Ht & Hid)].
  apply Hnew. rewrite Hid in Heq. simpl in Heq.
  apply toString_inj in Heq. now subst t.
Qed.

Lemma handleCheckin_blocks_active_duplicates_witness :
  UniqueActive [Sample.parked]
  /\ nth_error [Sample.parked] 0 = Some Sample.parked
  /\ status Sample.parked = active
  /\ handleCheckin Sample.asha 9000 9000
       (vehiclesAfter (handleCheckout "1000" 5000 [Sample.parked]))
     = (true,
        vehiclesAfter (handleCheckout "1000" 5000 [Sample.parked])
          ++ [newVehicle Sample.asha 9000 9000],
        []).
Proof.
  assert (Huniq : UniqueActive [Sample.parked]).
  { intros [|[|i]] [|[|j]] vi vj Hi Hj; try discriminate; auto;
      destruct i; discriminate || destruct j; discriminate. }
  split; [exact Huniq|]. split; [reflexivity|]. split; [reflexivity|].
  destruct (handleCheckin_blocks_active_duplicates
              [Sample.parked] Sample.asha 9000 9000)
    as (_ & _ & _ & _ & Hreuse & _).
  exact (Hreuse 0%nat Sample.parked 5000%Z Huniq eq_refl eq_refl eq_refl).
Defined.

(** C8 as stated fails in two places.  A check-in whose [Date.now()]
    reading equals that of an earlier check-in is accepted with the id of
    the earlier record, so the id is not unique.  And the comparison is on
    the vehicle number as the form stores it, upper-cased but with its
    whitespace: a plate typed with spaces is accepted while the same plate
    typed without them is active. *)
Lemma checkin_reuses_id_and_compares_stored_plate :
  run [CheckIn "MH12AB1234" "Car" "Asha" "9876543210" 1000 1000;
       CheckOut "1000" 1000;
       CheckIn "MH12AB1234" "Car" "Asha" "9876543210" 1000 1000]
      initialVehicles
  = [checkoutVehicle "1000" 1000 Sample.parked; Sample.parked]
  /\ id (checkoutVehicle "1000" 1000 Sample.parked) = id Sample.parked
  /\ ~ CheckInIdIsNew
  /\ normalizePlate "MH 12 AB 1234" = normalizePlate "MH12AB1234"
  /\ handleCheckin (formData "MH 12 AB 1234" "Car" "Asha" "9876543210")
       2000 2000 [Sample.parked]
     = (true,
        [Sample.parked;
         newVehicle (formData "MH 12 AB 1234" "Car" "Asha" "9876543210")
           2000 2000],
        [])
  /\ ~ CheckInBlocksNormalizedDuplicates.
Proof.
  split; [reflexivity|]. split; [reflexivity|].
  split.
  { intros H.
    apply (H [CheckIn "MH12AB1234" "Car" "Asha" "9876543210" 1000 1000;
              CheckOut "1000" 1000]
             Sample.asha 1000%Z 1000%Z
             (checkoutVehicle "1000" 1000 Sample.parked)).
    - reflexivity.
    - left. reflexivity.
    - reflexivity. }
  split; [reflexivity|]. split; [reflexivity|].
  intros H.
  destruct (H [Sample.parked]
              (formData "MH 12 AB 1234" "Car" "Asha" "9876543210")
              2000%Z 2000%Z) as [_ Hblock].
  assert (E : true = false); [|discriminate E].
  apply Hblock. exists Sample.parked.
  split; [left; reflexivity|]. split; reflexivity.
Qed.

(** C9. The charge function used at check-out, the local copy in
    [ActiveVehiclesDetails] and the function the [ActiveVehicles] display
    applies (the prop [App] passes to it) return the same amount for every
    duration; so the live charge either view shows at a clock reading is
    the charge a check-out at that reading records. *)
Theorem charge_functions_agree :
  forall (h : Q) (v : Vehicle) (now : Z),
    calculateCharge h = ActiveVehiclesDetails.calculateCharge h
    /\ calculateCharge h = App_ActiveVehicles_calculateCharge h
    /\ App_ActiveVehicles_getCurrentCharge now (checkInTime v)
       = ActiveVehiclesDetails.getCurrentCharge now (checkInTime v)
    /\ (status v = active ->
        charge (checkoutVehicle (id v) now v)
        = Some (App_ActiveVehicles_getCurrentCharge now (checkInTime v))).
Proof.
  intros h v now. repeat (split; [reflexivity|]).
  intros Hact. now rewrite (checkoutVehicle_hit (id v) now v eq_refl Hact).
Qed.

Lemma charge_functions_agree_witness :
  status Sample.parked = active
  /\ charge (checkoutVehicle "1000" 5000 Sample.parked)
     = Some (App_ActiveVehicles_getCurrentCharge 5000 1000).
Proof.
  split; [reflexivity|].
  exact (proj2 (proj2 (proj2
           (charge_functions_agree 0 Sample.parked 5000))) eq_refl).
Defined.

End LifecycleFacts.

(** * Regular expressions: the matcher decides the language *)

Section RegexFacts.
Import Regex.
Open Scope string_scope.

Lemma append_nil_r (s : string) : s ++ "" = s.
Proof. induction s as [|c s IH]; simpl; congruence. Qed.

Lemma append_assoc (s1 s2 s3 : string) :
  (s1 ++ s2) ++ s3 = s1 ++ (s2 ++ s3).
Proof. induction s1 as [|c s1 IH]; simpl; congruence. Qed.

Lemma length_append (s1 s2 : string) :
  String.length (s1 ++ s2) = (String.length s1 + String.length s2)%nat.
Proof. induction s1 as [|c s1 IH]; simpl; congruence. Qed.

Lemma append_eq_nil (s1 s2 : string) :
  s1 ++ s2 = "" -> s1 = "" /\ s2 = "".
Proof. destruct s1; simpl; [auto | discriminate]. Qed.

Lemma nullable_spec (r : regex) : nullable r = true <-> lang r "".
Proof.
  induction r as [| | p | r1 IH1 r2 IH2 | r1 IH1 r2 IH2]; simpl.
  - split; [discriminate | tauto].
  - tauto.
  - split; [discriminate | intros (c & E & _); discriminate].
  - rewrite andb_true_iff, IH1, IH2. split.
    + intros [H1 H2]. exists "", "". auto.
    + intros (s1 & s2 & E & H1 & H2). symmetry in E.
      apply append_eq_nil in E. destruct E as [-> ->]. auto.
  - rewrite orb_true_iff, IH1, IH2. tauto.
Qed.

Lemma deriv_spec (r : regex) : forall (c : ascii) (s : string),
  lang (deriv c r) s <-> lang r (String c s).
Proof.
  induction r as [| | p | r1 IH1 r2 IH2 | r1 IH1 r2 IH2];
    intros c s; simpl.
  - tauto.
  - split; [tauto | discriminate].
  - destruct (p c) eqn:Ep; simpl; split.
    + intros ->. eauto.
    + intros (c' & E & _). now injection E.
    + tauto.
    + intros (c' & E & Hp). injection E as <- _. congruence.
  - assert (Hcat : (exists s1 s2, s = s1 ++ s2
                                  /\ lang (deriv c r1) s1 /\ lang r2 s2)
                   \/ (nullable r1 = true /\ lang (deriv c r2) s)
                   <-> exists s1 s2, String c s = s1 ++ s2
                                     /\ lang r1 s1 /\ lang r2 s2).
    { split.
      - intros [(s1 & s2 & -> & H1 & H2) | [Hn H2]].
        + exists (String c s1), s2. rewrite <- IH1. auto.
        + exists "", (String c s). rewrite <- nullable_spec, <- IH2. auto.
      - intros (s1 & s2 & E & H1 & H2). destruct s1 as [|c1 s1]; simpl in E.
        + right. subst s2. rewrite nullable_spec, IH2. auto.
        + injection E as <- ->. left. exists s1, s2. rewrite IH1. auto. }
    rewrite <- Hcat. destruct (nullable r1); simpl.
    + split; [intros [H | H]; [left; exact H | right; auto]
             | intros [H | [_ H]]; [left; exact H | right; exact H]].
    + split; [intros H; left; exact H | intros [H | [Hf _]]; [exact H | discriminate]].
  - rewrite IH1, IH2. tauto.
Qed.

Lemma test_spec (s : string) : forall r : regex,
  test r s = true <-> lang r s.
Proof.
  induction s as [|c s IH]; intros r; simpl.
  - apply nullable_spec.
  - rewrite IH. apply deriv_spec.
Qed.

Import VehicleCheckin.

Lemma allChars_append (p : ascii -> bool) (s1 s2 : string) :
  allChars p (s1 ++ s2) = allChars p s1 && allChars p s2.
Proof.
  induction s1 as [|c s1 IH]; simpl; [reflexivity|].
  now rewrite IH, andb_assoc.
Qed.

(** A string splits at every position up to its length. *)
Lemma split_at (n : nat) : forall s : string,
  (n <= String.length s)%nat ->
  exists s1 s2, s = s1 ++ s2 /\ String.length s1 = n.
Proof.
  induction n as [|n IH]; intros s Hle.
  - exists "", s. auto.
  - destruct s as [|c s]; simpl in Hle; [lia|].
    destruct (IH s) as (s1 & s2 & -> & Hl); [lia|].
    exists (String c s1), s2. simpl. auto.
Qed.

Lemma lang_times (p : ascii -> bool) (n : nat) : forall s : string,
  lang (times n (Class p)) s
  <-> String.length s = n /\ allChars p s = true.
Proof.
  induction n as [|n IH]; intros s; simpl.
  - split.
    + intros ->. auto.
    + intros [Hl _]. destruct s; [reflexivity | discriminate].
  - split.
    + intros (s1 & s2 & -> & (c & -> & Hp) & H2).
      apply IH in H2. destruct H2 as [Hl Ha]. simpl.
      rewrite Hp, Ha, Hl. auto.
    + intros [Hl Ha]. destruct s as [|c s]; [discriminate|].
      simpl in Hl, Ha. apply andb_true_iff in Ha. destruct Ha as [Hp Ha].
      exists (String c ""), s. split; [reflexivity|].
      split; [eauto|]. apply IH. split; [lia | exact Ha].
Qed.

Lemma lang_upto (p : ascii -> bool) (n : nat) : forall s : string,
  lang (upto n (Class p)) s
  <-> (String.length s <= n)%nat /\ allChars p s = true.
Proof.
  induction n as [|n IH]; intros s; simpl.
  - split.
    + intros ->. auto.
    + intros [Hl _]. destruct s; [reflexivity | simpl in Hl; lia].
  - split.
    + intros [-> | (s1 & s2 & -> & (c & -> & Hp) & H2)].
      * simpl. split; [lia | reflexivity].
      * apply IH in H2. destruct H2 as [Hl Ha]. simpl.
        rewrite Hp, Ha. split; [lia | reflexivity].
    + intros [Hl Ha]. destruct s as [|c s]; [now left | right].
      simpl in Hl, Ha. apply andb_true_iff in Ha. destruct Ha as [Hp Ha].
      exists (String c ""), s. split; [reflexivity|].
      split; [eauto|]. apply IH. split; [lia | exact Ha].
Qed.

(** [p{m,n}] matches the strings of [m] to [n] characters of class [p]. *)
Lemma lang_Rep (p : ascii -> bool) (m n : nat) (s : string) :
  (m <= n)%nat ->
  (lang (Rep m n (Class p)) s
   <-> (m <= String.length s <= n)%nat /\ allChars p s = true).
Proof.
  intros Hmn. unfold Rep. simpl. split.
  - intros (s1 & s2 & -> & H1 & H2).
    apply lang_times in H1. apply lang_upto in H2.
    destruct H1 as [Hl1 Ha1], H2 as [Hl2 Ha2].
    rewrite length_append, allChars_append, Ha1, Ha2.
    split; [lia | reflexivity].
  - intros [[Hlo Hhi] Ha].
    destruct (split_at m s Hlo) as (s1 & s2 & -> & Hl1).
    rewrite length_append in Hhi. rewrite allChars_append in Ha.
    apply andb_true_iff in Ha. destruct Ha as [Ha1 Ha2].
    exists s1, s2. split; [reflexivity|].
    split; [apply lang_times | apply lang_upto]; split; auto; lia.
Qed.

(** The pattern of the vehicle number denotes the plate shape. *)
Lemma lang_vehiclePattern (s : string) :
  lang vehiclePattern s <-> PlateShape s.
Proof.
  unfold vehiclePattern, PlateShape.
  cbn [lang]. fold (Rep 2 2 (Class upperAZ)) (Rep 1 2 (Class digit))
                   (Rep 1 2 (Class upperAZ)) (Rep 3 4 (Class digit)).
  split.
  - intros (l1 & t1 & -> & H1 & d1 & t2 & -> & H2 & l2 & d2 & -> & H3 & H4).
    apply lang_Rep in H1, H2, H3, H4; try lia.
    exists l1, d1, l2, d2.
    destruct H1 as [? ?], H2 as [? ?], H3 as [? ?], H4 as [? ?].
    repeat split; auto; lia.
  - intros (l1 & d1 & l2 & d2 & -> & Hl1 & Ha1 & Hl2 & Ha2
            & Hl3 & Ha3 & Hl4 & Ha4).
    exists l1, (d1 ++ l2 ++ d2). split; [reflexivity|].
    split; [apply lang_Rep; [lia | split; [lia | exact Ha1]]|].
    exists d1, (l2 ++ d2). split; [reflexivity|].
    split; [apply lang_Rep; [lia | split; [lia | exact Ha2]]|].
    exists l2, d2. split; [reflexivity|].
    split; apply lang_Rep; try lia; split; auto.
Qed.

Lemma validateVehicleNumber_shape (s : string) :
  validateVehicleNumber s = true <-> PlateShape (removeWhitespace s).
Proof.
  unfold validateVehicleNumber. rewrite test_spec.
  apply lang_vehiclePattern.
Qed.

(** Case-folding turns no character into whitespace, nor whitespace into
    anything else. *)
Lemma whitespace_upperChar (c : ascii) :
  whitespace (upperChar c) = whitespace c.
Proof. destruct c as [[] [] [] [] [] [] [] []]; reflexivity. Qed.

Lemma removeWhitespace_toUpperCase (s : string) :
  removeWhitespace (toUpperCase s) = toUpperCase (removeWhitespace s).
Proof.
  induction s as [|c s IH]; simpl; [reflexivity|].
  rewrite whitespace_upperChar.
  destruct (whitespace c); simpl; congruence.
Qed.

Lemma toUpperCase_truthy (s : string) :
  truthy (toUpperCase s) = truthy s.
Proof. destruct s; reflexivity. Qed.

(** C7, as the code has it.  [validateVehicleNumber] is a total predicate
    that strips all whitespace and requires, in full, 2 letters, 1-2
    digits, 1-2 letters and 3-4 digits, the letters being upper-case
    [A-Z]: it does not case-fold.  The form's change handler case-folds
    the input to upper case and then validates it, and on ASCII input the
    two together are the predicate "strip, case-fold, match": they accept
    "mh 12 ab 1234" and reject "MH1234". *)
Theorem validateVehicleNumber_after_case_folding :
  forall s : string, isAscii s = true ->
    (validateVehicleNumber s = true <-> PlateShape (removeWhitespace s))
    /\ validateVehicleNumber (toUpperCase s) = IsValidPlateNumber_spec s
    /\ fst (handleVehicleNumberChange s) = toUpperCase s
    /\ (snd (handleVehicleNumberChange s) = ""
        <-> s = "" \/ IsValidPlateNumber_spec s = true)
    /\ validateVehicleNumber (toUpperCase "mh 12 ab 1234") = true
    /\ snd (handleVehicleNumberChange "mh 12 ab 1234") = ""
    /\ validateVehicleNumber "MH1234" = false
    /\ validateVehicleNumber (toUpperCase "MH1234") = false
    /\ snd (handleVehicleNumberChange "MH1234") = vehicleNumberError.
Proof.
  intros s _.
  assert (Hfold : validateVehicleNumber (toUpperCase s)
                  = IsValidPlateNumber_spec s).
  { unfold validateVehicleNumber, IsValidPlateNumber_spec.
    now rewrite removeWhitespace_toUpperCase. }
  split; [apply validateVehicleNumber_shape|].
  split; [exact Hfold|].
  split; [reflexivity|].
  split; [|repeat split; reflexivity].
  unfold handleVehicleNumberChange. cbn [snd].
  rewrite toUpperCase_truthy, Hfold.
  destruct s as [|c s]; cbn [truthy andb].
  - split; auto.
  - destruct (IsValidPlateNumber_spec (String c s)); cbn [negb]; split.
    + auto.
    + reflexivity.
    + discriminate.
    + intros [H | H]; discriminate H.
Qed.

Lemma validateVehicleNumber_after_case_folding_witness :
  isAscii "mh 12 ab 1234" = true
  /\ validateVehicleNumber (toUpperCase "mh 12 ab 1234")
     = IsValidPlateNumber_spec "mh 12 ab 1234"
  /\ PlateShape (removeWhitespace "MH 12 AB 1234").
Proof.
  split; [reflexivity|].
  destruct (validateVehicleNumber_after_case_folding "mh 12 ab 1234" eq_refl)
    as (_ & Hfold & _).
  split; [exact Hfold|].
  apply (validateVehicleNumber_after_case_folding "MH 12 AB 1234" eq_refl).
  reflexivity.
Defined.

(** C7 as stated fails: taken alone, the validator rejects the lower-case
    plate that the predicate of the specification accepts. *)
Lemma validateVehicleNumber_does_not_case_fold :
  validateVehicleNumber "mh 12 ab 1234" = false
  /\ IsValidPlateNumber_spec "mh 12 ab 1234" = true
  /\ ~ (forall s : string,
          validateVehicleNumber s = IsValidPlateNumber_spec s).
Proof.
  split; [reflexivity|]. split; [reflexivity|].
  intros H. specialize (H "mh 12 ab 1234"). discriminate H.
Qed.

End RegexFacts.

(** * Further properties of the charge and of the lifecycle *)

Section MoreLifecycleFacts.
Import App Properties.

(** X1. Whatever the duration, the charge is at least 10; it is 10 exactly
    when the duration is at most 12 hours, and otherwise a multiple of 20
    that is at least 20: no amount strictly between 10 and 20 is ever
    charged. *)
Theorem calculateCharge_range :
  forall h : Q,
    (10 <= calculateCharge h)%Z
    /\ (calculateCharge h = 10%Z <-> (h <= 12)%Q)
    /\ ((12 < h)%Q ->
        exists k : Z, (1 <= k)%Z /\ calculateCharge h = (20 * k)%Z).
Proof.
  intros h. destruct (Qlt_le_dec 12 h) as [Hbig | Hsmall].
  - assert (Hpos : (0 < h)%Q)
      by (eapply Qlt_trans; [|exact Hbig]; reflexivity).
    pose proof (ceil_div24_pos h Hpos) as Hk.
    rewrite (calculateCharge_daily h Hbig).
    split; [lia|]. split.
    + split; [lia|]. intros Hle. exfalso.
      apply (Qlt_irrefl 12). eapply Qlt_le_trans; eauto.
    + intros _. exists (Qceiling (h / 24)). split; [exact Hk | lia].
  - rewrite (calculateCharge_flat h Hsmall).
    split; [lia|]. split; [tauto|].
    intros Hbig. exfalso.
    apply (Qlt_irrefl 12). eapply Qlt_le_trans; eauto.
Qed.

Lemma calculateCharge_range_witness :
  (12 < 50)%Q
  /\ exists k : Z, (1 <= k)%Z /\ calculateCharge 50 = (20 * k)%Z.
Proof.
  split; [reflexivity|].
  exact (proj2 (proj2 (calculateCharge_range 50)) eq_refl).
Defined.

(** X2. Neither handler removes, moves or re-identifies a record of the
    collection it reads.  A call of [handleCheckin] writes a collection
    that holds every record it read, unchanged and at the same position,
    followed by at most one new record.  A call of [handleCheckout] writes
    a collection of the same length in which the record at each position
    keeps its id, vehicle number, vehicle type, owner name, phone number
    and check-in time. *)
Theorem handlers_keep_the_records_they_read :
  forall (vs : list Vehicle) (data : CheckinData) (dateNow newDate : Z)
         (vehicleId : string) (now : Z),
    let afterIn := vehiclesAfter (handleCheckin data dateNow newDate vs) in
    let afterOut := vehiclesAfter (handleCheckout vehicleId now vs) in
    (List.length vs <= List.length afterIn <= S (List.length vs))%nat
    /\ (forall i v, nth_error vs i = Some v -> nth_error afterIn i = Some v)
    /\ List.length afterOut = List.length vs
    /\ (forall i v, nth_error vs i = Some v ->
          exists v', nth_error afterOut i = Some v'
                     /\ (id v', vehicleNumber v', vehicleType v',
                         ownerName v', phoneNumber v', checkInTime v')
                        = (id v, vehicleNumber v, vehicleType v,
                           ownerName v, phoneNumber v, checkInTime v)).
Proof.
  intros vs data dateNow newDate vehicleId now afterIn afterOut.
  subst afterIn afterOut.
  rewrite handleCheckout_unfold. unfold vehiclesAfter. cbn [fst snd].
  assert (Hin : snd (fst (handleCheckin data dateNow newDate vs)) = vs
                \/ snd (fst (handleCheckin data dateNow newDate vs))
                   = vs ++ [newVehicle data dateNow newDate]).
  { destruct (find (isActiveWithNumber (data_vehicleNumber data)) vs)
      as [w|] eqn:E.
    - left. now rewrite (handleCheckin_blocked data dateNow newDate vs w E).
    - right. now rewrite (handleCheckin_accepted data dateNow newDate vs E). }
  split; [|split; [|split]].
  - destruct Hin as [-> | ->]; [lia|]. rewrite length_app. simpl. lia.
  - intros i v Hi. destruct Hin as [-> | ->]; [exact Hi|].
    rewrite nth_error_app1; [exact Hi|].
    apply nth_error_Some. congruence.
  - apply length_map.
  - intros i v Hi. exists (checkoutVehicle vehicleId now v).
    rewrite nth_error_checkout, Hi. split; [reflexivity|].
    unfold checkoutVehicle. destruct (matches vehicleId v); reflexivity.
Qed.

Lemma handlers_keep_the_records_they_read_witness :
  nth_error [Sample.parked; Sample.parkedLater] 0 = Some Sample.parked
  /\ nth_error
       (vehiclesAfter
          (handleCheckin Sample.asha 3000 3000
             [Sample.parked; Sample.parkedLater])) 0
     = Some Sample.parked
  /\ exists v',
       nth_error
         (vehiclesAfter
            (handleCheckout "1000" 5000 [Sample.parked; Sample.parkedLater]))
         0 = Some v'
       /\ (id v', vehicleNumber v', vehicleType v', ownerName v',
           phoneNumber v', checkInTime v')
          = (id Sample.parked, vehicleNumber Sample.parked,
             vehicleType Sample.parked, ownerName Sample.parked,
             phoneNumber Sample.parked, checkInTime Sample.parked).
Proof.
  destruct (handlers_keep_the_records_they_read
              [Sample.parked; Sample.parkedLater] Sample.asha 3000 3000
              "1000" 5000) as (_ & Hin & _ & Hout).
  split; [reflexivity|].
  split; [exact (Hin 0%nat Sample.parked eq_refl)|].
  exact (Hout 0%nat Sample.parked eq_refl).
Defined.

(** X3. In every collection reachable from the empty one, a completed
    record carries a check-out time, the duration between its check-in and
    check-out times, and the charge [calculateCharge] gives for exactly
    that duration: the stored charge never disagrees with the stored
    times. *)
Theorem completed_records_carry_their_charge :
  forall (ops : list Op) (v : Vehicle),
    In v (run ops initialVehicles) -> status v = completed ->
    exists T : Z,
      checkOutTime v = Some T
      /\ duration v = Some (JS.hoursBetween T (checkInTime v))
      /\ charge v
         = Some (calculateCharge (JS.hoursBetween T (checkInTime v))).
Proof.
  intros ops v Hin.
  set (Ok := fun w : Vehicle =>
         status w = completed ->
         exists T : Z,
           checkOutTime w = Some T
           /\ duration w = Some (JS.hoursBetween T (checkInTime w))
           /\ charge w
              = Some (calculateCharge (JS.hoursBetween T (checkInTime w)))).
  assert (H : Forall Ok (run ops initialVehicles)).
  { apply run_invariant; [|constructor].
    intros vs op Hvs.
    destruct op as [number vtype owner phone dateNow newDate
                   | vehicleId now].
    - destruct (step_checkin_cases vs number vtype owner phone
                  dateNow newDate) as [[-> _] | [-> _]]; [exact Hvs|].
      apply Forall_app. split; [exact Hvs|].
      constructor; [|constructor]. intros Hc. discriminate Hc.
    - rewrite step_checkout. apply Forall_map.
      eapply Forall_impl; [|exact Hvs].
      intros w Hw.
      destruct (checkoutVehicle_cases vehicleId now w)
        as [-> | (Hid & Hst & _)]; [exact Hw|].
      rewrite (checkoutVehicle_hit vehicleId now w Hid Hst).
      intros _. exists now. auto. }
  rewrite Forall_forall in H. exact (H v Hin).
Qed.

Lemma completed_records_carry_their_charge_witness :
  In Sample.left
     (run [CheckIn "MH12AB1234" "Car" "Asha" "9876543210" 1000 1000;
           CheckOut "1000" (1000 + 30 * JS.msPerHour)] initialVehicles)
  /\ status Sample.left = completed
  /\ exists T : Z,
       checkOutTime Sample.left = Some T
       /\ duration Sample.left
          = Some (JS.hoursBetween T (checkInTime Sample.left))
       /\ charge Sample.left
          = Some (calculateCharge
                    (JS.hoursBetween T (checkInTime Sample.left))).
Proof.
  assert (Hin : In Sample.left
     (run [CheckIn "MH12AB1234" "Car" "Asha" "9876543210" 1000 1000;
           CheckOut "1000" (1000 + 30 * JS.msPerHour)] initialVehicles))
    by (left; reflexivity).
  split; [exact Hin|]. split; [reflexivity|].
  exact (completed_records_carry_their_charge _ Sample.left Hin eq_refl).
Defined.

Lemma status_cases (v : Vehicle) :
  (Status_eqb (status v) active = true
   /\ Status_eqb (status v) completed = false)
  \/ (Status_eqb (status v) active = false
      /\ Status_eqb (status v) completed = true).
Proof. destruct (status v); simpl; auto. Qed.

(** X4. The lists [activeVehicles] and [completedVehicles] split the
    collection in two.  After a check-out, the active list is the former
    active list without the records of the given id, in the same order, so
    no active record with that id is left. *)
Theorem activeVehicles_after_checkout :
  forall (vs : list Vehicle) (vehicleId : string) (now : Z),
    let vs' := vehiclesAfter (handleCheckout vehicleId now vs) in
    (List.length (activeVehicles vs) + List.length (completedVehicles vs)
     = List.length vs)%nat
    /\ activeVehicles vs'
       = filter (fun v => negb (String.eqb (id v) vehicleId))
                (activeVehicles vs)
    /\ forall v, In v (activeVehicles vs') -> id v <> vehicleId.
Proof.
  intros vs vehicleId now vs'. subst vs'.
  rewrite handleCheckout_unfold. unfold vehiclesAfter. cbn [fst snd].
  assert (Hsplit : (List.length (activeVehicles vs)
                    + List.length (completedVehicles vs)
                    = List.length vs)%nat).
  { unfold activeVehicles, completedVehicles.
    induction vs as [|w vs IH]; [reflexivity|]. cbn [filter].
    destruct (status_cases w) as [[-> ->] | [-> ->]]; simpl; lia. }
  assert (Hact : activeVehicles (map (checkoutVehicle vehicleId now) vs)
                 = filter (fun v => negb (String.eqb (id v) vehicleId))
                          (activeVehicles vs)).
  { unfold activeVehicles. clear Hsplit.
    induction vs as [|w vs IH]; [reflexivity|]. cbn [map filter].
    rewrite IH.
    destruct (checkoutVehicle_cases vehicleId now w)
      as [E | (Hid & Hst & Hdone)].
    - rewrite E.
      destruct (Status_eqb (status w) active) eqn:Ea; [|reflexivity].
      cbn [filter].
      destruct (String.eqb (id w) vehicleId) eqn:Eid; [|reflexivity].
      exfalso. apply String.eqb_eq in Eid. apply Status_eqb_eq in Ea.
      rewrite (checkoutVehicle_hit vehicleId now w Eid Ea) in E.
      apply (f_equal status) in E. simpl in E. congruence.
    - rewrite Hdone, Hst. cbn [Status_eqb filter].
      apply String.eqb_eq in Hid. rewrite Hid. reflexivity. }
  split; [exact Hsplit|]. split; [exact Hact|].
  intros v Hv. rewrite Hact in Hv. apply filter_In in Hv.
  destruct Hv as [_ Hv]. apply negb_true_iff, String.eqb_neq in Hv.
  exact Hv.
Qed.

Lemma activeVehicles_after_checkout_witness :
  In Sample.parkedLater
     (activeVehicles
        (vehiclesAfter
           (handleCheckout "1000" 5000 [Sample.parked; Sample.parkedLater])))
  /\ id Sample.parkedLater <> "1000"%string.
Proof.
  assert (Hin : In Sample.parkedLater
     (activeVehicles
        (vehiclesAfter
           (handleCheckout "1000" 5000 [Sample.parked; Sample.parkedLater]))))
    by (left; reflexivity).
  split; [exact Hin|].
  exact (proj2 (proj2 (activeVehicles_after_checkout
                         [Sample.parked; Sample.parkedLater] "1000" 5000))
               Sample.parkedLater Hin).
Defined.

Lemma checkoutVehicle_twice a Ta Tb v :
  checkoutVehicle a Tb (checkoutVehicle a Ta v) = checkoutVehicle a Ta v.
Proof.
  destruct (checkoutVehicle_cases a Ta v) as [E | (_ & _ & Hdone)].
  - rewrite E.
    destruct (checkoutVehicle_cases a Tb v) as [E' | (Hid & Hst & _)];
      [exact E'|].
    rewrite (checkoutVehicle_hit a Ta v Hid Hst) in E.
    apply (f_equal status) in E. simpl in E. congruence.
  - now apply checkoutVehicle_stays_completed.
Qed.

Lemma checkoutVehicle_commute a b Ta Tb v :
  a <> b ->
  checkoutVehicle a Ta (checkoutVehicle b Tb v)
  = checkoutVehicle b Tb (checkoutVehicle a Ta v).
Proof.
  intros Hab.
  destruct (string_dec (id v) a) as [Ea | Ea];
    destruct (string_dec (id v) b) as [Eb | Eb]; try congruence.
  - rewrite (checkoutVehicle_skip b Tb v) by (left; congruence).
    apply eq_sym, checkoutVehicle_skip. left.
    rewrite checkoutVehicle_id. congruence.
  - rewrite (checkoutVehicle_skip a Ta v) by (left; congruence).
    apply checkoutVehicle_skip. left.
    rewrite checkoutVehicle_id. congruence.
  - rewrite (checkoutVehicle_skip a Ta v) by (left; congruence).
    rewrite (checkoutVehicle_skip b Tb v) by (left; congruence).
    now rewrite (checkoutVehicle_skip a Ta v) by (left; congruence).
Qed.

(** X5. Check-outs compose: a second check-out on the same id leaves the
    collection exactly as the first left it (the recorded check-out time,
    duration and charge are not overwritten), and check-outs on two
    different ids give the same collection in either order. *)
Theorem checkouts_repeat_and_commute :
  forall (vs : list Vehicle) (a b : string) (Ta Tb : Z),
    let after := fun x T l => vehiclesAfter (handleCheckout x T l) in
    after a Tb (after a Ta vs) = after a Ta vs
    /\ (a <> b ->
        after a Ta (after b Tb vs) = after b Tb (after a Ta vs)).
Proof.
  intros vs a b Ta Tb after. subst after. cbv beta.
  unfold vehiclesAfter.
  repeat (rewrite ?handleCheckout_unfold; cbn [fst snd]).
  rewrite !map_map. split.
  - apply map_ext. intros v. apply checkoutVehicle_twice.
  - intros Hab. apply map_ext. intros v.
    now apply checkoutVehicle_commute.
Qed.

Lemma checkouts_repeat_and_commute_witness :
  "1000"%string <> "2000"%string
  /\ vehiclesAfter
       (handleCheckout "1000" 5000
          (vehiclesAfter
             (handleCheckout "2000" 6000
                [Sample.parked; Sample.parkedLater])))
     = vehiclesAfter
         (handleCheckout "2000" 6000
            (vehiclesAfter
               (handleCheckout "1000" 5000
                  [Sample.parked; Sample.parkedLater]))).
Proof.
  assert (Hne : "1000"%string <> "2000"%string) by discriminate.
  split; [exact Hne|].
  exact (proj2 (checkouts_repeat_and_commute
                  [Sample.parked; Sample.parkedLater]
                  "1000" "2000" 5000 6000) Hne).
Defined.

End MoreLifecycleFacts.

(** * The list of parked vehicles: elapsed time and search *)

Section ActiveVehiclesViewFacts.
Import JSString ActiveVehiclesView.
Open Scope string_scope.

(** X6. For a vehicle checked in at or before the current clock reading,
    the elapsed time is shown with whole hours [h >= 0] and minutes
    [0 <= m <= 59] that add up to the whole minutes elapsed
    ([60 h + m = floor(diff / 60000)]); the short form "m min" is used
    exactly during the first hour. *)
Theorem formatDuration_hours_and_minutes :
  forall now checkIn : Z,
    (checkIn <= now)%Z ->
    exists h m : Z,
      (0 <= h)%Z /\ (0 <= m < 60)%Z
      /\ (60 * h + m = (now - checkIn) / 60000)%Z
      /\ (h = 0%Z <-> (now - checkIn < JS.msPerHour)%Z)
      /\ formatDuration now checkIn
         = if (h =? 0)%Z then JS.toString m ++ " min"
           else JS.toString h ++ "h " ++ JS.toString m ++ "m".
Proof.
  intros now checkIn Hle.
  unfold formatDuration. set (diff := (now - checkIn)%Z).
  assert (Hd : (0 <= diff)%Z) by (subst diff; lia).
  change (1000 * 60 * 60)%Z with 3600000%Z.
  change (1000 * 60)%Z with 60000%Z.
  rewrite Z.rem_mod_nonneg by lia.
  exists (diff / 3600000)%Z, (diff mod 3600000 / 60000)%Z.
  pose proof (Z.div_mod diff 3600000 ltac:(lia)) as Hdm.
  pose proof (Z.mod_pos_bound diff 3600000 ltac:(lia)) as Hr.
  set (q := (diff / 3600000)%Z) in *.
  set (r := (diff mod 3600000)%Z) in *.
  assert (Hq : (0 <= q)%Z) by (subst q; apply Z.div_pos; lia).
  split; [exact Hq|].
  split.
  { split; [apply Z.div_pos; lia|].
    apply Z.div_lt_upper_bound; lia. }
  split.
  { rewrite Hdm.
    replace (3600000 * q + r)%Z with (60 * q * 60000 + r)%Z by lia.
    rewrite Z.div_add_l by lia. lia. }
  split; [|reflexivity].
  change JS.msPerHour with 3600000%Z. split.
  - intros Hq0. rewrite Hq0 in Hdm. lia.
  - intros Hlt. subst q. apply Z.div_small. lia.
Qed.

Lemma formatDuration_hours_and_minutes_witness :
  (1000 <= 5401000)%Z
  /\ exists h m : Z,
       (0 <= h)%Z /\ (0 <= m < 60)%Z
       /\ (60 * h + m = (5401000 - 1000) / 60000)%Z
       /\ (h = 0%Z <-> (5401000 - 1000 < JS.msPerHour)%Z)
       /\ formatDuration 5401000 1000
          = if (h =? 0)%Z then JS.toString m ++ " min"
            else JS.toString h ++ "h " ++ JS.toString m ++ "m".
Proof.
  assert (Hle : (1000 <= 5401000)%Z) by lia.
  split; [exact Hle|].
  exact (formatDuration_hours_and_minutes 5401000 1000 Hle).
Defined.

Lemma toLowerCase_append (s1 s2 : string) :
  toLowerCase (s1 ++ s2) = toLowerCase s1 ++ toLowerCase s2.
Proof. induction s1 as [|c s1 IH]; simpl; congruence. Qed.

Lemma startsWith_spec (q : string) : forall s : string,
  startsWith s q = true <-> exists b, s = q ++ b.
Proof.
  induction q as [|a q IH]; intros s; simpl.
  - split; [intros _; exists s; reflexivity | reflexivity].
  - destruct s as [|c s].
    + split; [discriminate | intros (b & E); discriminate].
    + rewrite andb_true_iff, Ascii.eqb_eq, IH. split.
      * intros [-> (b & ->)]. exists b. reflexivity.
      * intros (b & E). injection E as -> ->. eauto.
Qed.

(** [includes] finds exactly the substrings. *)
Lemma includes_spec (q s : string) :
  includes s q = true <-> exists a b, s = a ++ q ++ b.
Proof.
  induction s as [|c s IH]; simpl.
  - rewrite orb_false_r, startsWith_spec. split.
    + intros (b & E). exists "", b. exact E.
    + intros (a & b & E). destruct a; simpl in E; [eauto | discriminate].
  - rewrite orb_true_iff, IH.
    rewrite (startsWith_spec q (String c s)). split.
    + intros [(b & E) | (a & b & ->)].
      * exists "", b. exact E.
      * exists (String c a), b. reflexivity.
    + intros (a & b & E). destruct a as [|c' a]; simpl in E.
      * left. eauto.
      * right. injection E as -> ->. eauto.
Qed.

Lemma includes_prefix_of_query (s q c : string) :
  includes s (q ++ c) = true -> includes s q = true.
Proof.
  rewrite !includes_spec. intros (a & b & ->).
  exists a, (c ++ b). now rewrite append_assoc.
Qed.

Lemma filter_filter_implied {A : Type} (f g : A -> bool) (l : list A) :
  (forall x, f x = true -> g x = true) ->
  filter f (filter g l) = filter f l.
Proof.
  intros Himp. induction l as [|x l IH]; [reflexivity|]. simpl.
  destruct (g x) eqn:Eg; simpl.
  - now rewrite IH.
  - destruct (f x) eqn:Ef; [|exact IH].
    rewrite (Himp x Ef) in Eg. discriminate.
Qed.

(** X7. Searching the list of parked vehicles with an ASCII query: the
    empty query lists every vehicle; typing further ASCII characters only
    narrows the result, which is the previous result searched again; and
    the vehicles are listed in their original order. *)
Theorem search_narrows_as_the_query_grows :
  forall (vehicles : list Vehicle) (q c : string),
    VehicleCheckin.isAscii q = true ->
    VehicleCheckin.isAscii c = true ->
    filteredVehicles vehicles "" = vehicles
    /\ filteredVehicles vehicles (q ++ c)
       = filteredVehicles (filteredVehicles vehicles q) (q ++ c)
    /\ forall v, In v (filteredVehicles vehicles (q ++ c)) ->
                 In v (filteredVehicles vehicles q).
Proof.
  intros vehicles q c _ _.
  assert (Himp : forall v, matchesQuery (q ++ c) v = true ->
                           matchesQuery q v = true).
  { intros v. unfold matchesQuery. rewrite toLowerCase_append.
    apply includes_prefix_of_query. }
  split.
  { unfold filteredVehicles. induction vehicles as [|v vs IH];
      [reflexivity|].
    simpl. unfold matchesQuery at 1. simpl.
    destruct (toLowerCase (vehicleNumber v)); simpl; now rewrite IH. }
  split.
  { unfold filteredVehicles. symmetry. now apply filter_filter_implied. }
  intros v Hv. unfold filteredVehicles in *.
  apply filter_In in Hv. apply filter_In. destruct Hv as [Hin Hm]. auto.
Qed.

Lemma search_narrows_as_the_query_grows_witness :
  VehicleCheckin.isAscii "mh" = true
  /\ VehicleCheckin.isAscii "12" = true
  /\ In (mkVehicle "a1" "MH12AB1234" "Car" "Asha" "9876543210" 1000
           None None None "active")
        (filteredVehicles
           [mkVehicle "a1" "MH12AB1234" "Car" "Asha" "9876543210" 1000
              None None None "active";
            mkVehicle "b2" "KA01C123" "Bike" "Ravi" "9123456780" 2000
              None None None "active"]
           ("mh" ++ "12"))
  /\ In (mkVehicle "a1" "MH12AB1234" "Car" "Asha" "9876543210" 1000
           None None None "active")
        (filteredVehicles
           [mkVehicle "a1" "MH12AB1234" "Car" "Asha" "9876543210" 1000
              None None None "active";
            mkVehicle "b2" "KA01C123" "Bike" "Ravi" "9123456780" 2000
              None None None "active"]
           "mh").
Proof.
  assert (Hin : In (mkVehicle "a1" "MH12AB1234" "Car" "Asha" "9876543210"
                      1000 None None None "active")
     (filteredVehicles
        [mkVehicle "a1" "MH12AB1234" "Car" "Asha" "9876543210" 1000
           None None None "active";
         mkVehicle "b2" "KA01C123" "Bike" "Ravi" "9123456780" 2000
           None None None "active"]
        ("mh" ++ "12"))) by (left; reflexivity).
  split; [reflexivity|]. split; [reflexivity|]. split; [exact Hin|].
  exact (proj2 (proj2 (search_narrows_as_the_query_grows
                         _ "mh" "12" eq_refl eq_refl))
               _ Hin).
Defined.

Lemma lowerChar_upperChar (c : ascii) :
  lowerChar (VehicleCheckin.upperChar c) = lowerChar c.
Proof. destruct c as [[] [] [] [] [] [] [] []]; reflexivity. Qed.

Lemma toLowerCase_toUpperCase (s : string) :
  toLowerCase (VehicleCheckin.toUpperCase s) = toLowerCase s.
Proof.
  induction s as [|c s IH]; simpl; [reflexivity|].
  now rewrite lowerChar_upperChar, IH.
Qed.

Lemma includes_refl (s : string) : includes s s = true.
Proof. apply includes_spec. exists "", "". now rewrite append_nil_r. Qed.

(** X8. The search ignores case on ASCII input: a query and its upper-case
    form list the same vehicles, and a vehicle whose number equals the
    query up to case is always listed. *)
Theorem search_ignores_case :
  forall (vehicles : list Vehicle) (q : string),
    VehicleCheckin.isAscii q = true ->
    filteredVehicles vehicles (VehicleCheckin.toUpperCase q)
    = filteredVehicles vehicles q
    /\ forall v, In v vehicles ->
         toLowerCase (vehicleNumber v) = toLowerCase q ->
         In v (filteredVehicles vehicles q).
Proof.
  intros vehicles q _. split.
  - unfold filteredVehicles. apply filter_ext. intros v.
    unfold matchesQuery. now rewrite toLowerCase_toUpperCase.
  - intros v Hin Heq. unfold filteredVehicles. apply filter_In.
    split; [exact Hin|]. unfold matchesQuery. rewrite Heq.
    apply includes_refl.
Qed.

Lemma search_ignores_case_witness :
  VehicleCheckin.isAscii "mh12" = true
  /\ filteredVehicles
       [{| _id := "a1"; vehicleNumber := "MH12AB1234"; vehicleType := "Car";
           ownerName := "Asha"; phoneNumber := "9876543210";
           checkInTime := 1000; checkOutTime := None; duration := None;
           charge := None; status := "active" |}]
       (VehicleCheckin.toUpperCase "mh12")
     = filteredVehicles
         [{| _id := "a1"; vehicleNumber := "MH12AB1234";
             vehicleType := "Car"; ownerName := "Asha";
             phoneNumber := "9876543210"; checkInTime := 1000;
             checkOutTime := None; duration := None; charge := None;
             status := "active" |}]
         "mh12".
Proof.
  split; [reflexivity|].
  exact (proj1 (search_ignores_case _ "mh12" eq_refl)).
Defined.

End ActiveVehiclesViewFacts.

(** * The check-in form: phone numbers and submission *)

Section CheckinFormFacts.
Import Regex VehicleCheckin CheckinForm.
Open Scope string_scope.

(** X9. [validatePhoneNumber] accepts exactly the strings of ten digits
    whose first digit is 6, 7, 8 or 9; spaces, signs and any other
    character make it reject. *)
Theorem validatePhoneNumber_shape :
  forall s : string,
    validatePhoneNumber s = true
    <-> exists (c : ascii) (rest : string),
          s = String c rest /\ digit69 c = true
          /\ String.length rest = 9%nat /\ allChars digit rest = true.
Proof.
  intros s. unfold validatePhoneNumber, phonePattern.
  rewrite test_spec. cbn [lang].
  fold (Rep 9 9 (Class digit)). split.
  - intros (s1 & s2 & -> & (c & -> & Hc) & H2).
    apply lang_Rep in H2; [|lia]. destruct H2 as [Hl Ha].
    exists c, s2. repeat split; auto. lia.
  - intros (c & rest & -> & Hc & Hl & Ha).
    exists (String c ""), rest. split; [reflexivity|].
    split; [eauto|]. apply lang_Rep; [lia|]. split; [lia | exact Ha].
Qed.

Lemma allChars_removeNonDigits (s : string) :
  allChars digit (removeNonDigits s) = true.
Proof.
  induction s as [|c s IH]; simpl; [reflexivity|].
  destruct (digit c) eqn:E; simpl; [now rewrite E|exact IH].
Qed.

Lemma removeNonDigits_fixed (s : string) :
  allChars digit s = true -> removeNonDigits s = s.
Proof.
  induction s as [|c s IH]; simpl; [reflexivity|].
  intros H. apply andb_true_iff in H. destruct H as [Hc Hs].
  rewrite Hc. f_equal. exact (IH Hs).
Qed.

Lemma length_removeNonDigits (s : string) :
  (String.length (removeNonDigits s) <= String.length s)%nat.
Proof.
  induction s as [|c s IH]; simpl; [lia|].
  destruct (digit c); simpl; lia.
Qed.

Lemma removeNonDigits_filter (s : string) :
  list_ascii_of_string (removeNonDigits s)
  = filter digit (list_ascii_of_string s).
Proof.
  induction s as [|c s IH]; simpl; [reflexivity|].
  destruct (digit c); simpl; now rewrite IH.
Qed.

(** X10. Whatever is typed in the phone field, the form keeps exactly the
    digit characters of the input, in their order, and drops every other
    character; feeding the kept value back changes nothing; and the field
    shows no error exactly when the kept value is empty or a valid phone
    number. *)
Theorem handlePhoneNumberChange_keeps_digits :
  forall value : string,
    let stored := fst (handlePhoneNumberChange value) in
    let message := snd (handlePhoneNumberChange value) in
    list_ascii_of_string stored
    = filter digit (list_ascii_of_string value)
    /\ allChars digit stored = true
    /\ (String.length stored <= String.length value)%nat
    /\ (allChars digit value = true -> stored = value)
    /\ handlePhoneNumberChange stored = (stored, message)
    /\ (message = "" <-> stored = "" \/ validatePhoneNumber stored = true)
    /\ (message = "" \/ message = phoneNumberError).
Proof.
  intros value stored message. subst stored message.
  unfold handlePhoneNumberChange. cbn [fst snd].
  split; [apply removeNonDigits_filter|].
  set (d := removeNonDigits value).
  assert (Hd : allChars digit d = true)
    by apply allChars_removeNonDigits.
  split; [exact Hd|].
  split; [apply length_removeNonDigits|].
  split; [apply removeNonDigits_fixed|].
  split; [now rewrite (removeNonDigits_fixed d Hd)|].
  destruct d as [|c d']; cbn [truthy andb].
  - split; [split; auto | auto].
  - destruct (validatePhoneNumber (String c d')); cbn [negb];
      (split; [split|]).
    + auto.
    + reflexivity.
    + auto.
    + discriminate.
    + intros [H | H]; discriminate H.
    + auto.
Qed.

Lemma handlePhoneNumberChange_keeps_digits_witness :
  list_ascii_of_string (fst (handlePhoneNumberChange "+98765 43210x"))
  = filter digit (list_ascii_of_string "+98765 43210x")
  /\ fst (handlePhoneNumberChange "+98765 43210x") = "9876543210"
  /\ snd (handlePhoneNumberChange "+98765 43210x") = ""
  /\ snd (handlePhoneNumberChange "12345") = phoneNumberError.
Proof.
  split;
    [exact (proj1 (handlePhoneNumberChange_keeps_digits "+98765 43210x"))|].
  split; [reflexivity|]. split; reflexivity.
Defined.

(** When the form is accepted: every field filled, both validators pass,
    the server answered [ok], and no active record has the number. *)
Lemma handleSubmit_cases (st : State) (reply : ServerReply)
    (t1 t2 t3 t4 : Z) (vs : list App.Vehicle) :
  let f := formData st in
  let r := App_handleSubmit st reply t1 t2 t3 t4 vs in
  (truthy (vehicleNumber f) = true /\ truthy (vehicleType f) = true
   /\ truthy (ownerName f) = true /\ truthy (phoneNumber f) = true
   /\ validateVehicleNumber (vehicleNumber f) = true
   /\ validatePhoneNumber (phoneNumber f) = true
   /\ (exists message, reply = Replied true message)
   /\ find (App.isActiveWithNumber (vehicleNumber f)) vs = None
   /\ r = ({| formData := emptyFormData; errors := emptyErrors;
              showQRCode := true;
              lastCheckedInVehicle :=
                Some (App.newVehicle (toCheckinData f) t3 t4) |},
           (vs ++ [App.newVehicle (toCheckinData f) t1 t2])%list,
           [ToastSuccess "Vehicle checked in successfully!"
              (vehicleNumber f ++ " has been parked")]))
  \/ (exists shown, r = (st, vs, shown) /\ shown <> []
      /\ forall title description,
           ~ In (ToastSuccess title description) shown).
Proof.
  intros f r. subst r. unfold App_handleSubmit, handleSubmit. fold f.
  destruct (truthy (vehicleNumber f)) eqn:E1; cbn [negb orb];
    [|right; eexists; split; [reflexivity|]; split; [discriminate|];
      intros ? ? [H | []]; discriminate H].
  destruct (truthy (vehicleType f)) eqn:E2; cbn [negb orb];
    [|right; eexists; split; [reflexivity|]; split; [discriminate|];
      intros ? ? [H | []]; discriminate H].
  destruct (truthy (ownerName f)) eqn:E3; cbn [negb orb];
    [|right; eexists; split; [reflexivity|]; split; [discriminate|];
      intros ? ? [H | []]; discriminate H].
  destruct (truthy (phoneNumber f)) eqn:E4; cbn [negb orb];
    [|right; eexists; split; [reflexivity|]; split; [discriminate|];
      intros ? ? [H | []]; discriminate H].
  destruct (validateVehicleNumber (vehicleNumber f)) eqn:E5; cbn [negb];
    [|right; eexists; split; [reflexivity|]; split; [discriminate|];
      intros ? ? [H | []]; discriminate H].
  destruct (validatePhoneNumber (phoneNumber f)) eqn:E6; cbn [negb];
    [|right; eexists; split; [reflexivity|]; split; [discriminate|];
      intros ? ? [H | []]; discriminate H].
  destruct reply as [|[|] message].
  - right. eexists. split; [reflexivity|]. split; [discriminate|].
    intros ? ? [H | [H | []]]; discriminate H.
  - destruct (find (App.isActiveWithNumber (vehicleNumber f)) vs)
      as [w|] eqn:Ef.
    + right.
      rewrite (handleCheckin_blocked (toCheckinData f) t1 t2 vs w Ef).
      cbn [negb]. eexists. split; [reflexivity|]. split; [discriminate|].
      intros ? ? [H | [H | []]]; discriminate H.
    + left.
      rewrite (handleCheckin_accepted (toCheckinData f) t1 t2 vs Ef).
      cbn [negb map app].
      repeat (split; [reflexivity || eauto|]). reflexivity.
  - right. eexists. split; [reflexivity|]. split; [discriminate|].
    intros ? ? [H | []]; discriminate H.
Qed.

Lemma truthy_nonempty (s : string) : truthy s = true -> s <> "".
Proof. destruct s; [discriminate | intros _; discriminate]. Qed.

Lemma app_one_neq {A : Type} (l : list A) (x : A) : (l ++ [x])%list <> l.
Proof.
  intros E. apply (f_equal (@List.length A)) in E.
  rewrite length_app in E. simpl in E. lia.
Qed.

(** X11. What submitting the form does, check by check.  With a field
    left empty it shows "Please fill all fields"; otherwise with a vehicle
    number the validator rejects, "Invalid vehicle number format";
    otherwise with a phone number the validator rejects, "Invalid phone
    number"; otherwise, when the request fails, the server error, and when
    the server refuses, its message; otherwise, when an active record has
    the number, the alert and toast of [handleCheckin].  In all these cases
    the collection and the form are left as they were.  Only when every
    check passes is one active record with the form's fields appended, the
    form emptied, the QR code shown and the success toast shown; so a
    changed collection means that every check passed. *)
Theorem handleSubmit_adds_only_checked_vehicles :
  forall (st : State) (reply : ServerReply) (t1 t2 t3 t4 : Z)
         (vs : list App.Vehicle),
    let f := formData st in
    let r := App_handleSubmit st reply t1 t2 t3 t4 vs in
    let fresh := App.newVehicle (toCheckinData f) t1 t2 in
    let filled := truthy (vehicleNumber f) && truthy (vehicleType f)
                  && truthy (ownerName f) && truthy (phoneNumber f) in
    let plateOk := validateVehicleNumber (vehicleNumber f) in
    let phoneOk := validatePhoneNumber (phoneNumber f) in
    let taken := find (App.isActiveWithNumber (vehicleNumber f)) vs in
    (filled = false ->
       r = (st, vs, [ToastError "Please fill all fields"]))
    /\ (filled = true -> plateOk = false ->
          r = (st, vs, [ToastError "Invalid vehicle number format"]))
    /\ (filled = true -> plateOk = true -> phoneOk = false ->
          r = (st, vs, [ToastError "Invalid phone number"]))
    /\ (filled = true -> plateOk = true -> phoneOk = true ->
          (reply = Failed ->
             r = (st, vs,
                  [ConsoleError;
                   ToastError "Server error: Unable to save vehicle"]))
          /\ (forall message, reply = Replied false message ->
                r = (st, vs, [ToastError (messageOrDefault message)]))
          /\ (forall message w, reply = Replied true message ->
                taken = Some w ->
                r = (st, vs,
                     [FromApp (App.Alert
                                 (App.alreadyCheckedInMessage
                                    (vehicleNumber f)));
                      FromApp (App.ToastError "Vehicle Already Parked"
                                 (App.alreadyParkedDescription
                                    (vehicleNumber f)))]))
          /\ (forall message, reply = Replied true message ->
                taken = None ->
                r = ({| formData := emptyFormData; errors := emptyErrors;
                        showQRCode := true;
                        lastCheckedInVehicle :=
                          Some (App.newVehicle (toCheckinData f) t3 t4) |},
                     (vs ++ [fresh])%list,
                     [ToastSuccess "Vehicle checked in successfully!"
                        (vehicleNumber f ++ " has been parked")])
                /\ WellFormed fresh /\ App.status fresh = App.active))
    /\ (snd (fst r) <> vs ->
          filled = true /\ plateOk = true /\ phoneOk = true
          /\ (exists message, reply = Replied true message)
          /\ taken = None).
Proof.
  intros st reply t1 t2 t3 t4 vs f r fresh filled plateOk phoneOk taken.
  assert (Hgate : snd (fst r) <> vs ->
                  filled = true /\ plateOk = true /\ phoneOk = true
                  /\ (exists message, reply = Replied true message)
                  /\ taken = None).
  { intros Hchanged.
    destruct (handleSubmit_cases st reply t1 t2 t3 t4 vs)
      as [(E1 & E2 & E3 & E4 & E5 & E6 & Hok & Hnone & _)
         | (shown & Hr & _)].
    - subst filled plateOk phoneOk taken f.
      rewrite E1, E2, E3, E4. auto.
    - exfalso. apply Hchanged. subst r. now rewrite Hr. }
  subst r fresh filled plateOk phoneOk taken f.
  unfold App_handleSubmit, handleSubmit in *.
  destruct st as [f e q l]. cbn [formData] in *.
  destruct (truthy (vehicleNumber f)) eqn:E1,
           (truthy (vehicleType f)) eqn:E2,
           (truthy (ownerName f)) eqn:E3,
           (truthy (phoneNumber f)) eqn:E4;
    cbn [negb orb andb] in *;
    try (split; [intros _; reflexivity|];
         split; [discriminate|]; split; [discriminate|];
         split; [discriminate | exact Hgate]).
  split; [discriminate|].
  destruct (validateVehicleNumber (vehicleNumber f)) eqn:E5;
    cbn [negb] in *;
    [|split; [intros _ _; reflexivity|];
      split; [discriminate|]; split; [discriminate | exact Hgate]].
  split; [discriminate|].
  destruct (validatePhoneNumber (phoneNumber f)) eqn:E6;
    cbn [negb] in *;
    [|split; [intros _ _ _; reflexivity|];
      split; [discriminate | exact Hgate]].
  split; [discriminate|]. split; [|exact Hgate].
  intros _ _ _. clear Hgate.
  split; [intros ->; reflexivity|].
  split; [intros message ->; reflexivity|].
  split.
  - intros message w -> Hw.
    now rewrite (handleCheckin_blocked (toCheckinData f) t1 t2 vs w Hw).
  - intros message -> Hnone.
    rewrite (handleCheckin_accepted (toCheckinData f) t1 t2 vs Hnone).
    cbn [negb map app]. split; [reflexivity|]. split; [|reflexivity].
    unfold WellFormed. simpl.
    repeat split; auto using truthy_nonempty.
Qed.

Lemma handleSubmit_adds_only_checked_vehicles_witness :
  App_handleSubmit
    {| formData := {| vehicleNumber := "MH 12 AB 1234";
                      vehicleType := "Car"; ownerName := "Asha";
                      phoneNumber := "9876543210" |};
       errors := emptyErrors; showQRCode := false;
       lastCheckedInVehicle := None |}
    (Replied true "") 1000 1000 1001 1001 []
  = ({| formData := emptyFormData; errors := emptyErrors;
        showQRCode := true;
        lastCheckedInVehicle :=
          Some (App.newVehicle
                  (App.formData "MH 12 AB 1234" "Car" "Asha" "9876543210")
                  1001 1001) |},
     [App.newVehicle
        (App.formData "MH 12 AB 1234" "Car" "Asha" "9876543210")
        1000 1000],
     [ToastSuccess "Vehicle checked in successfully!"
        "MH 12 AB 1234 has been parked"])
  /\ App_handleSubmit
       {| formData := {| vehicleNumber := "MH12AB1234";
                         vehicleType := "Car"; ownerName := "Asha";
                         phoneNumber := "12345" |};
          errors := emptyErrors; showQRCode := false;
          lastCheckedInVehicle := None |}
       (Replied true "") 1000 1000 1001 1001 [Sample.parked]
     = ({| formData := {| vehicleNumber := "MH12AB1234";
                          vehicleType := "Car"; ownerName := "Asha";
                          phoneNumber := "12345" |};
           errors := emptyErrors; showQRCode := false;
           lastCheckedInVehicle := None |},
        [Sample.parked],
        [ToastError "Invalid phone number"]).
Proof.
  split.
  - destruct (handleSubmit_adds_only_checked_vehicles
                {| formData := {| vehicleNumber := "MH 12 AB 1234";
                                  vehicleType := "Car"; ownerName := "Asha";
                                  phoneNumber := "9876543210" |};
                   errors := emptyErrors; showQRCode := false;
                   lastCheckedInVehicle := None |}
                (Replied true "") 1000 1000 1001 1001 [])
      as (_ & _ & _ & Hall & _).
    destruct (Hall eq_refl eq_refl eq_refl) as (_ & _ & _ & Haccepted).
    exact (proj1 (Haccepted "" eq_refl eq_refl)).
  - destruct (handleSubmit_adds_only_checked_vehicles
                {| formData := {| vehicleNumber := "MH12AB1234";
                                  vehicleType := "Car"; ownerName := "Asha";
                                  phoneNumber := "12345" |};
                   errors := emptyErrors; showQRCode := false;
                   lastCheckedInVehicle := None |}
                (Replied true "") 1000 1000 1001 1001 [Sample.parked])
      as (_ & _ & Hphone & _).
    exact (Hphone eq_refl eq_refl eq_refl).
Defined.

Lemma deskRun_invariant (P : list App.Vehicle -> Prop) :
  (forall vs op, P vs -> P (deskStep vs op)) ->
  forall ops vs, P vs -> P (deskRun ops vs).
Proof.
  intros Hstep ops. induction ops as [|op ops IH]; intros vs HP.
  - exact HP.
  - simpl. apply IH, Hstep, HP.
Qed.

Lemma WellFormed_checkout vehicleId now v :
  WellFormed v -> WellFormed (App.checkoutVehicle vehicleId now v).
Proof.
  unfold WellFormed, App.checkoutVehicle.
  destruct (App.matches vehicleId v); simpl; auto.
Qed.

Lemma deskStep_cases vs op :
  deskStep vs op = vs
  \/ (exists vehicleId now,
        deskStep vs op = map (App.checkoutVehicle vehicleId now) vs)
  \/ (exists v, deskStep vs op = (vs ++ [v])%list
                /\ WellFormed v
                /\ find (App.isActiveWithNumber (App.vehicleNumber v)) vs
                   = None).
Proof.
  destruct op as [f reply t1 t2 t3 t4 | vehicleId now].
  - cbn [deskStep].
    set (st := {| formData := f; errors := emptyErrors;
                  showQRCode := false; lastCheckedInVehicle := None |}).
    destruct (handleSubmit_cases st reply t1 t2 t3 t4 vs)
      as [(E1 & E2 & E3 & E4 & E5 & E6 & _ & Hnone & Hr)
         | (shown & Hr & _)];
      cbn zeta in Hr; rewrite Hr; cbn [fst snd].
    + right. right. eexists. split; [reflexivity|].
      split; [|exact Hnone].
      repeat split; simpl; auto using truthy_nonempty.
    + left. reflexivity.
  - right. left. exists vehicleId, now. reflexivity.
Qed.

(** X12. Whatever is submitted through the form and whatever is checked
    out, starting from the empty collection: every record has a vehicle
    number and a phone number that pass the validators, a vehicle type and
    an owner name that are not empty, and no two active records share a
    vehicle number. *)
Theorem desk_records_are_well_formed :
  forall ops : list DeskOp,
    Forall WellFormed (deskRun ops App.initialVehicles)
    /\ Properties.UniqueActive (deskRun ops App.initialVehicles).
Proof.
  intros ops.
  apply (deskRun_invariant
           (fun vs => Forall WellFormed vs /\ Properties.UniqueActive vs)).
  - intros vs op [Hwf Huniq].
    destruct (deskStep_cases vs op)
      as [-> | [(vehicleId & now & ->) | (v & -> & Hv & Hnone)]].
    + auto.
    + split.
      * apply Forall_map. eapply Forall_impl; [|exact Hwf].
        intros w. apply WellFormed_checkout.
      * now apply UniqueActive_checkout.
    + split.
      * apply Forall_app. split; [exact Hwf|]. constructor; auto.
      * now apply UniqueActive_append.
  - split; [constructor | apply UniqueActive_initial].
Qed.

End CheckinFormFacts.

(** * Dashboard and history: revenue and vehicle types *)

Section ReadViewFacts.
Import JSString.

Lemma fold_revenue_shift (l : list Dashboard.Vehicle) : forall a : Z,
  fold_left (fun sum v => (sum + Dashboard.chargeOrZero v)%Z) l a
  = (a + Dashboard.todayRevenue l)%Z.
Proof.
  unfold Dashboard.todayRevenue.
  induction l as [|v l IH]; intros a; cbn [fold_left]; [lia|].
  rewrite (IH (a + Dashboard.chargeOrZero v)%Z).
  rewrite (IH (0 + Dashboard.chargeOrZero v)%Z). lia.
Qed.

Lemma todayRevenue_cons (v : Dashboard.Vehicle) (l : list Dashboard.Vehicle) :
  Dashboard.todayRevenue (v :: l)
  = (Dashboard.chargeOrZero v + Dashboard.todayRevenue l)%Z.
Proof.
  unfold Dashboard.todayRevenue at 1. cbn [fold_left].
  rewrite fold_revenue_shift. lia.
Qed.

(** X13. Today's revenue is the sum of the charges present: it is 0 for
    no record, each record adds its charge, or 0 when it carries none, to
    the revenue of the others; hence it adds up over concatenation, does
    not depend on the order in which the server lists the records, ignores
    records that carry no charge, and is not negative when no charge
    is. *)
Theorem todayRevenue_sums_charges :
  forall (v : Dashboard.Vehicle) (l1 l2 : list Dashboard.Vehicle),
    Dashboard.todayRevenue [] = 0%Z
    /\ Dashboard.todayRevenue (v :: l1)
       = (match Dashboard.charge v with
          | Some c => c
          | None => 0
          end + Dashboard.todayRevenue l1)%Z
    /\ Dashboard.todayRevenue (l1 ++ l2)
       = (Dashboard.todayRevenue l1 + Dashboard.todayRevenue l2)%Z
    /\ (Permutation l1 l2 ->
        Dashboard.todayRevenue l1 = Dashboard.todayRevenue l2)
    /\ Dashboard.todayRevenue
         (filter (fun v => Properties.present (Dashboard.charge v)) l1)
       = Dashboard.todayRevenue l1
    /\ ((forall w c, In w l1 -> Dashboard.charge w = Some c -> (0 <= c)%Z) ->
        (0 <= Dashboard.todayRevenue l1)%Z).
Proof.
  intros v l1 l2. split; [reflexivity|].
  split; [apply todayRevenue_cons|]. split.
  { unfold Dashboard.todayRevenue at 1.
    rewrite fold_left_app, fold_revenue_shift. reflexivity. }
  split.
  { intros Hp. induction Hp as [| x l l' _ IH | x y l | l l' l'' _ IH1 _ IH2].
    - reflexivity.
    - rewrite !todayRevenue_cons. lia.
    - rewrite !todayRevenue_cons. lia.
    - congruence. }
  split.
  { clear v. induction l1 as [|v l IH]; [reflexivity|]. cbn [filter].
    destruct (Dashboard.charge v) as [c|] eqn:Ec; cbn [Properties.present].
    - rewrite !todayRevenue_cons, IH. reflexivity.
    - rewrite todayRevenue_cons, IH. unfold Dashboard.chargeOrZero.
      rewrite Ec. lia. }
  clear v. induction l1 as [|v l IH]; intros Hpos; [discriminate|].
  rewrite todayRevenue_cons.
  assert (Hv : (0 <= Dashboard.chargeOrZero v)%Z).
  { unfold Dashboard.chargeOrZero.
    destruct (Dashboard.charge v) as [c|] eqn:Ec; [|lia].
    exact (Hpos v c (or_introl eq_refl) Ec). }
  assert ((0 <= Dashboard.todayRevenue l)%Z)
    by (apply IH; intros w c Hw; apply Hpos; now right).
  lia.
Qed.

Lemma todayRevenue_sums_charges_witness :
  Permutation
    [Dashboard.mkVehicle None "MH12AB1234" "Car" "Asha" "9876543210"
       "2025-01-01T10:00:00.000Z" (Some "2025-01-02T16:00:00.000Z"%string)
       (Some 30) (Some 40%Z) App.completed;
     Dashboard.mkVehicle None "KA01C123" "Bike" "Ravi" "9123456780"
       "2025-01-02T09:00:00.000Z" None None None App.active]
    [Dashboard.mkVehicle None "KA01C123" "Bike" "Ravi" "9123456780"
       "2025-01-02T09:00:00.000Z" None None None App.active;
     Dashboard.mkVehicle None "MH12AB1234" "Car" "Asha" "9876543210"
       "2025-01-01T10:00:00.000Z" (Some "2025-01-02T16:00:00.000Z"%string)
       (Some 30) (Some 40%Z) App.completed]
  /\ Dashboard.todayRevenue
       [Dashboard.mkVehicle None "MH12AB1234" "Car" "Asha" "9876543210"
          "2025-01-01T10:00:00.000Z"
          (Some "2025-01-02T16:00:00.000Z"%string)
          (Some 30) (Some 40%Z) App.completed;
        Dashboard.mkVehicle None "KA01C123" "Bike" "Ravi" "9123456780"
          "2025-01-02T09:00:00.000Z" None None None App.active]
     = Dashboard.todayRevenue
         [Dashboard.mkVehicle None "KA01C123" "Bike" "Ravi" "9123456780"
            "2025-01-02T09:00:00.000Z" None None None App.active;
          Dashboard.mkVehicle None "MH12AB1234" "Car" "Asha" "9876543210"
            "2025-01-01T10:00:00.000Z"
            (Some "2025-01-02T16:00:00.000Z"%string)
            (Some 30) (Some 40%Z) App.completed]
  /\ Dashboard.todayRevenue
       [Dashboard.mkVehicle None "MH12AB1234" "Car" "Asha" "9876543210"
          "2025-01-01T10:00:00.000Z"
          (Some "2025-01-02T16:00:00.000Z"%string)
          (Some 30) (Some 40%Z) App.completed]
     = (40 + Dashboard.todayRevenue [])%Z.
Proof.
  split; [apply perm_swap|]. split.
  - exact (proj1 (proj2 (proj2 (proj2
             (todayRevenue_sums_charges
                (Dashboard.mkVehicle None "" "" "" "" "" None None None
                   App.active) _ _))))
             (perm_swap _ _ _)).
  - exact (proj1 (proj2
             (todayRevenue_sums_charges
                (Dashboard.mkVehicle None "MH12AB1234" "Car" "Asha"
                   "9876543210" "2025-01-01T10:00:00.000Z"
                   (Some "2025-01-02T16:00:00.000Z"%string)
                   (Some 30) (Some 40%Z) App.completed) [] []))).
Defined.

Lemma existsb_eqb_In (x : string) (l : list string) :
  existsb (String.eqb x) l = true <-> In x l.
Proof.
  rewrite existsb_exists. split.
  - intros (y & Hy & E). apply String.eqb_eq in E. now subst y.
  - intros H. exists x. split; [exact H | apply String.eqb_refl].
Qed.

Lemma fold_setAdd_spec (xs : list string) : forall acc : list string,
  NoDup acc ->
  NoDup (fold_left ParkingHistory.setAdd xs acc)
  /\ (forall t, In t (fold_left ParkingHistory.setAdd xs acc)
                <-> In t acc \/ In t xs)
  /\ (NoDup (acc ++ xs) -> fold_left ParkingHistory.setAdd xs acc = acc ++ xs).
Proof.
  induction xs as [|x xs IH]; intros acc Hnd; simpl.
  - split; [exact Hnd|]. split; [tauto|]. intros _. now rewrite app_nil_r.
  - unfold ParkingHistory.setAdd at 2 4 6.
    destruct (existsb (String.eqb x) acc) eqn:E.
    + apply existsb_eqb_In in E.
      destruct (IH acc Hnd) as (H1 & H2 & H3).
      split; [exact H1|]. split.
      * intros t. rewrite H2. split; [tauto|].
        intros [H | [<- | H]]; auto.
      * intros Hall. exfalso.
        apply NoDup_remove_2 in Hall. apply Hall.
        apply in_or_app. now left.
    + assert (Hx : ~ In x acc).
      { intros Hin. apply existsb_eqb_In in Hin. congruence. }
      assert (Hnd' : NoDup (acc ++ [x])).
      { apply NoDup_app; [exact Hnd | repeat constructor; intros [] |].
        intros y Hy [<- | []]. exact (Hx Hy). }
      destruct (IH (acc ++ [x]) Hnd') as (H1 & H2 & H3).
      split; [exact H1|]. split.
      * intros t. rewrite H2, in_app_iff. simpl. tauto.
      * intros Hall. rewrite <- app_assoc in H3. simpl in H3.
        exact (H3 Hall).
Qed.

(** X14. The vehicle types offered by the history filter contain no
    duplicate, contain exactly the types that some vehicle has, and come
    in the order of the vehicles when these already have distinct
    types. *)
Theorem vehicleTypes_unique_and_complete :
  forall vehicles : list ParkingHistory.Vehicle,
    NoDup (ParkingHistory.vehicleTypes vehicles)
    /\ (forall t, In t (ParkingHistory.vehicleTypes vehicles)
                  <-> exists v, In v vehicles
                                /\ ParkingHistory.vehicleType v = t)
    /\ (NoDup (map ParkingHistory.vehicleType vehicles) ->
        ParkingHistory.vehicleTypes vehicles
        = map ParkingHistory.vehicleType vehicles).
Proof.
  intros vehicles. unfold ParkingHistory.vehicleTypes,
                          ParkingHistory.uniqueInOrder.
  destruct (fold_setAdd_spec (map ParkingHistory.vehicleType vehicles) []
              (NoDup_nil _)) as (H1 & H2 & H3).
  split; [exact H1|]. split; [|exact H3].
  intros t. rewrite H2, in_map_iff. split.
  - intros [[] | (v & E & Hv)]. eauto.
  - intros (v & Hv & E). right. eauto.
Qed.

Lemma vehicleTypes_unique_and_complete_witness :
  NoDup (map ParkingHistory.vehicleType
           [ParkingHistory.mkVehicle "a1" "MH12AB1234" "Car" "Asha"
              "9876543210" 1000 None None None "active";
            ParkingHistory.mkVehicle "b2" "KA01C123" "Bike" "Ravi"
              "9123456780" 2000 None None None "active"])
  /\ ParkingHistory.vehicleTypes
       [ParkingHistory.mkVehicle "a1" "MH12AB1234" "Car" "Asha"
          "9876543210" 1000 None None None "active";
        ParkingHistory.mkVehicle "b2" "KA01C123" "Bike" "Ravi"
          "9123456780" 2000 None None None "active"]
     = ["Car"; "Bike"]%string.
Proof.
  assert (Hnd : NoDup (map ParkingHistory.vehicleType
           [ParkingHistory.mkVehicle "a1" "MH12AB1234" "Car" "Asha"
              "9876543210" 1000 None None None "active";
            ParkingHistory.mkVehicle "b2" "KA01C123" "Bike" "Ravi"
              "9123456780" 2000 None None None "active"])).
  { constructor; [simpl; intros [H | []]; discriminate H|].
    constructor; [intros [] | constructor]. }
  split; [exact Hnd|].
  exact (proj2 (proj2 (vehicleTypes_unique_and_complete _)) Hnd).
Defined.

End ReadViewFacts.
